(** * MaDatabase: the [Database] façade of [src/index.ts] over Sequelize

    The class keeps three fields: the Sequelize instance, the registry
    [models] (a plain object used as a map from table name to model
    handle) and the flag [isConnected].  Sequelize is an external
    collaborator: every call on it is answered by an arbitrary oracle and
    recorded, so that statements can speak about which calls were made.
    Console output is recorded the same way.

    A read [this.models[tableName]] follows JavaScript: the registry is an
    object literal, so a name that is not stored but is a member of
    [Object.prototype] reads as that inherited member.  Objects are finite
    maps of their own properties (the order of keys is left out), numbers
    are integers, and [String.prototype.toLowerCase] is a parameter.

    The second part models the condition translator and the paginated
    search, which the source does not contain, from the specification. *)

From stdpp Require Import gmap strings list fin_maps pretty.
From Stdlib Require Import Ascii String ZArith QArith Qround Lia.

Close Scope Q_scope.

Set Warnings "-register-all".
Set Default Proof Using "Type".

(** ** JavaScript values *)

(** The members of [DataTypes] that the source and its documentation name. *)
Inductive DataType := INTEGER | DATE | NOW | STRING | BOOLEAN.

(** Plain data passed through the façade.  An object is the finite map of
    its own properties; the enumeration order of keys is not modelled. *)
Inductive JsValue :=
| JUndefined
| JNull
| JBool (b : bool)
| JNumber (n : Z)
| JString (s : string)
| JType (d : DataType)
| JArray (items : list JsValue)
| JObject (props : gmap string JsValue).

Abbreviation Obj := (gmap string JsValue).

(** Values that can be thrown. *)
Inductive JsError :=
| Error (message : string)
| TypeError (message : string)
| EngineError (name message : string).

(** What [console.log] and [console.error] received. *)
Inductive Diagnostic :=
| ConsoleLog (message : string)
| ConsoleError (message : string) (error : JsError).

(** Object spread [{...base, ...src}]: the properties of [src] are written
    last, so they win. *)
Definition spread (base src : Obj) : Obj := src ∪ base.

(** Spreading an optional argument: [...undefined] adds nothing. *)
Definition spread_opt (base : Obj) (src : option Obj) : Obj :=
  match src with
  | Some o => spread base o
  | None => base
  end.

(** The properties every object literal inherits from [Object.prototype]
    (ECMAScript 20.1.3 and Annex B.2.2).  [this.models = {}] is such an
    object, so reading one of these names from it finds the inherited
    member even though no table of that name was stored. *)
Definition Object_prototype : list string :=
  [ "constructor"; "hasOwnProperty"; "isPrototypeOf"; "propertyIsEnumerable";
    "toLocaleString"; "toString"; "valueOf"; "__proto__";
    "__defineGetter__"; "__defineSetter__";
    "__lookupGetter__"; "__lookupSetter__" ].

Section Facade.

(** Model handles ([ModelStatic] objects), compared by reference. *)
Context {Handle : Type}.
(** The state of the Sequelize instance and of the storage behind it. *)
Context {Engine : Type}.

(** The methods the façade calls on a model handle. *)
Inductive Method : Type → Type :=
| Create (data : Obj) (options : option Obj) : Method JsValue
| BulkCreate (dataArray : list Obj) (options : option Obj) : Method (list JsValue)
| FindAll (options : Obj) : Method (list JsValue)
| FindOne (options : Obj) : Method JsValue
| FindByPk (id : Z) : Method JsValue
| Update (data : Obj) (options : Obj) : Method Z
| Destroy (options : Obj) : Method Z
| Count (options : Obj) : Method Z.

Definition method_name {R} (m : Method R) : string :=
  match m with
  | Create _ _ => "create"
  | BulkCreate _ _ => "bulkCreate"
  | FindAll _ => "findAll"
  | FindOne _ => "findOne"
  | FindByPk _ => "findByPk"
  | Update _ _ => "update"
  | Destroy _ => "destroy"
  | Count _ => "count"
  end.

(** Every call that reaches the storage engine. *)
Inductive Call : Type → Type :=
| Authenticate : Call unit
| Define (modelName : string) (attributes options : Obj) : Call Handle
| Sync (force : bool) : Call unit
| Query (sql : string) (options : Obj) : Call (JsValue * JsValue)
| Close : Call unit
| OnModel {R} (h : Handle) (m : Method R) : Call R.

Inductive EngineCall := Called : ∀ {R}, Call R → EngineCall.

(** The engine answers a call with a thrown error or a result, and moves
    to a new state of its own. *)
Variable respond : ∀ R, Call R → Engine → Engine * (JsError + R).
(** Property reads on a live handle ([rawAttributes], [associations]). *)
Variable handle_property : Engine → Handle → string → JsValue.
(** [Object.create], the one façade method name that [Object] itself
    carries; its result is left open. *)
Variable Object_create : Obj → option Obj → JsError + JsValue.
(** [String.prototype.toLowerCase], the runtime's lower-casing of a
    string in all of Unicode; it is left open. *)
Variable toLowerCase : string → string.

(** The fields of a [Database], with the record of engine calls and
    console output made so far. *)
Record State := mkState {
  sequelize : Engine;
  models : gmap string Handle;
  isConnected : bool;
  calls : list EngineCall;
  console : list Diagnostic
}.

Definition with_sequelize (e : Engine) (c : EngineCall) (st : State) : State :=
  mkState e (models st) (isConnected st) (calls st ++ [c]) (console st).
Definition with_model (k : string) (h : Handle) (st : State) : State :=
  mkState (sequelize st) (<[k := h]> (models st)) (isConnected st)
          (calls st) (console st).
Definition with_isConnected (b : bool) (st : State) : State :=
  mkState (sequelize st) (models st) b (calls st) (console st).
Definition with_console (d : Diagnostic) (st : State) : State :=
  mkState (sequelize st) (models st) (isConnected st) (calls st)
          (console st ++ [d]).

(** [new Database(options)]: an empty registry, not connected. *)
Definition new_Database (e : Engine) : State := mkState e ∅ false [] [].

(** ** Computations: state passing with thrown errors *)

Definition M (R : Type) : Type := State → (JsError + R) * State.

#[local] Instance M_ret : MRet M := λ _ x st, (inr x, st).
#[local] Instance M_bind : MBind M := λ _ _ f m st,
  match m st with
  | (inr x, st') => f x st'
  | (inl e, st') => (inl e, st')
  end.

Definition throw {R} (e : JsError) : M R := λ st, (inl e, st).

Definition try_catch {R} (body : M R) (handler : JsError → M R) : M R :=
  λ st,
    match body st with
    | (inr x, st') => (inr x, st')
    | (inl e, st') => handler e st'
    end.

Definition gets {R} (f : State → R) : M R := λ st, (inr (f st), st).
Definition modify (f : State → State) : M unit := λ st, (inr tt, f st).

Definition console_log (message : string) : M unit :=
  modify (with_console (ConsoleLog message)).
Definition console_error (message : string) (error : JsError) : M unit :=
  modify (with_console (ConsoleError message error)).

(** One call on the engine: the oracle answers, the call is recorded. *)
Definition engine {R} (c : Call R) : M R := λ st,
  let '(e', r) := respond R c (sequelize st) in
  (r, with_sequelize e' (Called c) st).

(** ** Reading the registry *)

(** The value of [this.models[tableName]]. *)
Inductive Member :=
| Own (h : Handle)
| Inherited (name : string)
| Undefined.

Definition property (o : gmap string Handle) (k : string) : Member :=
  match o !! k with
  | Some h => Own h
  | None =>
      if bool_decide (k ∈ Object_prototype) then Inherited k else Undefined
  end.

(** Truthiness: model classes and the inherited members are objects or
    functions; only [undefined] is falsy. *)
Definition truthy (m : Member) : bool :=
  match m with
  | Own _ | Inherited _ => true
  | Undefined => false
  end.

Definition not_a_function {R} (method : Method R) : JsError :=
  TypeError ("this.models[tableName]." +:+ method_name method
             +:+ " is not a function").

(** A method call on a member that is not a model: of the names used by
    the façade only [Object.create] exists, on [constructor]. *)
Definition native {R} (k : string) (method : Method R) : M R :=
  match method in Method R return M R with
  | Create data options =>
      if String.eqb k "constructor"
      then λ st, (Object_create data options, st)
      else throw (not_a_function (Create data options))
  | m => throw (not_a_function m)
  end.

(** [this.models[tableName].method(...)]. *)
Definition invoke {R} (tableName : string) (method : Method R) : M R :=
  m ← gets (λ st, property (models st) tableName);
  match m with
  | Own h => engine (OnModel h method)
  | Inherited k => native k method
  | Undefined =>
      throw (TypeError ("Cannot read properties of undefined (reading '"
                        +:+ method_name method +:+ "')"))
  end.

(** [this.models[tableName].name] for a plain property. *)
Definition read_property (tableName name : string) : M JsValue :=
  gets (λ st,
    match property (models st) tableName with
    | Own h => handle_property (sequelize st) h name
    | _ => JUndefined
    end).

Definition table_not_found {R} (tableName : string) : M R :=
  throw (Error ("Table '" +:+ tableName +:+ "' not found")).

(** ** The methods of [Database] *)

Definition connect : M bool :=
  try_catch
    (engine Authenticate;;
     modify (with_isConnected true);;
     console_log "✅ Database connection established successfully";;
     mret true)
    (λ error,
       console_error "❌ Unable to connect to database:" error;;
       mret false).

Definition systemFields : Obj :=
  {[ "id" := JObject {[ "type" := JType INTEGER;
                        "primaryKey" := JBool true;
                        "autoIncrement" := JBool true ]};
     "createdAt" := JObject {[ "type" := JType DATE;
                               "defaultValue" := JType NOW ]};
     "updatedAt" := JObject {[ "type" := JType DATE;
                               "defaultValue" := JType NOW ]} ]}.

(** The assignment [this.models[tableName] = ...] is reached only for a
    name that resolves to nothing, inherited names included, so it always
    creates an own property. *)
Definition createTable (tableName : string) (schema : Obj)
    (options : option Obj) : M Member :=
  existing ← gets (λ st, property (models st) tableName);
  if truthy existing then
    console_log ("ℹ️ Table '" +:+ tableName +:+ "' already defined");;
    gets (λ st, property (models st) tableName)
  else
    let defaultSchema := spread systemFields schema in
    h ← engine (Define tableName defaultSchema
                  (spread {[ "tableName" := JString (toLowerCase tableName) ]}
                          (default ∅ options)));
    modify (with_model tableName h);;
    console_log ("✅ Table '" +:+ tableName +:+ "' created");;
    gets (λ st, property (models st) tableName).

(** The one engine call of a first registration, as [createTable] builds
    it. *)
Definition define_call (tableName : string) (schema : Obj)
    (options : option Obj) : Call Handle :=
  Define tableName (spread systemFields schema)
    (spread {[ "tableName" := JString (toLowerCase tableName) ]}
            (default ∅ options)).

Definition syncTables (force : option bool) : M bool :=
  try_catch
    (engine (Sync (default false force));;
     console_log "✅ All tables synced successfully";;
     mret true)
    (λ error,
       console_error "❌ Error syncing tables:" error;;
       mret false).

(** The shape shared by the eight table operations: the guard on
    [this.models[tableName]], then one method call inside [try], a
    success line for some of them, and a [catch] that reports and
    rethrows. *)
Definition on_table {R} (tableName : string) (method : Method R)
    (success : R → option string) (failure : string) : M R :=
  existing ← gets (λ st, property (models st) tableName);
  if negb (truthy existing) then table_not_found tableName
  else
    try_catch
      (result ← invoke tableName method;
       match success result with
       | Some line => console_log line
       | None => mret tt
       end;;
       mret result)
      (λ error, console_error failure error;; throw error).

Definition insert (tableName : string) (data : Obj) (options : option Obj)
    : M JsValue :=
  on_table tableName (Create data options)
    (λ _, Some ("✅ Data inserted into '" +:+ tableName +:+ "'"))
    ("❌ Error inserting into '" +:+ tableName +:+ "':").

Definition insertMany (tableName : string) (dataArray : list Obj)
    (options : option Obj) : M (list JsValue) :=
  on_table tableName (BulkCreate dataArray options)
    (λ results, Some ("✅ " +:+ pretty (List.length results)
                      +:+ " records inserted into '" +:+ tableName +:+ "'"))
    ("❌ Error bulk inserting into '" +:+ tableName +:+ "':").

Definition find (tableName : string) (options : option Obj)
    : M (list JsValue) :=
  on_table tableName (FindAll (default ∅ options))
    (λ _, None)
    ("❌ Error finding records in '" +:+ tableName +:+ "':").

Definition findOne (tableName : string) (options : option Obj) : M JsValue :=
  on_table tableName (FindOne (default ∅ options))
    (λ _, None)
    ("❌ Error finding record in '" +:+ tableName +:+ "':").

Definition findById (tableName : string) (id : Z) : M JsValue :=
  on_table tableName (FindByPk id)
    (λ _, None)
    ("❌ Error finding record by ID in '" +:+ tableName +:+ "':").

Definition update (tableName : string) (data : Obj) (where_ : JsValue)
    (options : option Obj) : M Z :=
  on_table tableName
    (Update data (spread_opt {[ "where" := where_ ]} options))
    (λ affectedRows, Some ("✅ " +:+ pretty affectedRows
                           +:+ " records updated in '" +:+ tableName +:+ "'"))
    ("❌ Error updating records in '" +:+ tableName +:+ "':").

Definition delete (tableName : string) (where_ : JsValue)
    (options : option Obj) : M Z :=
  on_table tableName
    (Destroy (spread_opt {[ "where" := where_ ]} options))
    (λ deletedRows, Some ("✅ " +:+ pretty deletedRows
                          +:+ " records deleted from '" +:+ tableName +:+ "'"))
    ("❌ Error deleting records from '" +:+ tableName +:+ "':").

Definition count (tableName : string) (options : option Obj) : M Z :=
  on_table tableName (Count (default ∅ options))
    (λ _, None)
    ("❌ Error counting records in '" +:+ tableName +:+ "':").

Definition query (sql : string) (options : option Obj) : M JsValue :=
  try_catch
    ('(results, metadata) ← engine (Query sql (default ∅ options));
     mret (JObject {[ "results" := results; "metadata" := metadata ]}))
    (λ error, console_error "❌ Error executing raw query:" error;; throw error).

Definition getTableInfo (tableName : string) : M JsValue :=
  existing ← gets (λ st, property (models st) tableName);
  if negb (truthy existing) then mret JNull
  else
    attributes ← read_property tableName "rawAttributes";
    associations ← read_property tableName "associations";
    mret (JObject {[ "tableName" := JString tableName;
                     "attributes" := attributes;
                     "associations" := associations ]}).

(** [Object.keys(this.models)], up to the order of the keys. *)
Definition getTables : M (list string) :=
  gets (λ st, (map_to_list (models st)).*1).

Definition close : M unit :=
  try_catch
    (engine Close;;
     modify (with_isConnected false);;
     console_log "✅ Database connection closed")
    (λ error, console_error "❌ Error closing database:" error).

Definition getSequelize : M Engine := gets sequelize.

Definition getModel (tableName : string) : M Member :=
  gets (λ st, property (models st) tableName).

(** ** The public interface as data *)

Inductive Op : Type → Type :=
| OpConnect : Op bool
| OpCreateTable (tableName : string) (schema : Obj) (options : option Obj)
    : Op Member
| OpSyncTables (force : option bool) : Op bool
| OpInsert (tableName : string) (data : Obj) (options : option Obj)
    : Op JsValue
| OpInsertMany (tableName : string) (dataArray : list Obj)
    (options : option Obj) : Op (list JsValue)
| OpFind (tableName : string) (options : option Obj) : Op (list JsValue)
| OpFindOne (tableName : string) (options : option Obj) : Op JsValue
| OpFindById (tableName : string) (id : Z) : Op JsValue
| OpUpdate (tableName : string) (data : Obj) (where_ : JsValue)
    (options : option Obj) : Op Z
| OpDelete (tableName : string) (where_ : JsValue) (options : option Obj)
    : Op Z
| OpCount (tableName : string) (options : option Obj) : Op Z
| OpQuery (sql : string) (options : option Obj) : Op JsValue
| OpGetTableInfo (tableName : string) : Op JsValue
| OpGetTables : Op (list string)
| OpClose : Op unit
| OpGetSequelize : Op Engine
| OpGetModel (tableName : string) : Op Member.

Definition run {R} (op : Op R) : M R :=
  match op in Op R return M R with
  | OpConnect => connect
  | OpCreateTable t s o => createTable t s o
  | OpSyncTables f => syncTables f
  | OpInsert t d o => insert t d o
  | OpInsertMany t ds o => insertMany t ds o
  | OpFind t o => find t o
  | OpFindOne t o => findOne t o
  | OpFindById t i => findById t i
  | OpUpdate t d w o => update t d w o
  | OpDelete t w o => delete t w o
  | OpCount t o => count t o
  | OpQuery q o => query q o
  | OpGetTableInfo t => getTableInfo t
  | OpGetTables => getTables
  | OpClose => close
  | OpGetSequelize => getSequelize
  | OpGetModel t => getModel t
  end.

Inductive AnyOp := AnOp : ∀ {R}, Op R → AnyOp.

(** A caller issuing operations one after the other, whatever each one
    returns or throws. *)
Fixpoint run_all (ops : list AnyOp) (st : State) : State :=
  match ops with
  | [] => st
  | AnOp op :: rest => run_all rest (run op st).2
  end.

(** The operations that work on one table: the table they name and the
    method they call on its handle. *)
Definition request {R} (op : Op R) : option (string * Method R) :=
  match op in Op R return option (string * Method R) with
  | OpInsert t d o => Some (t, Create d o)
  | OpInsertMany t ds o => Some (t, BulkCreate ds o)
  | OpFind t o => Some (t, FindAll (default ∅ o))
  | OpFindOne t o => Some (t, FindOne (default ∅ o))
  | OpFindById t i => Some (t, FindByPk i)
  | OpUpdate t d w o => Some (t, Update d (spread_opt {[ "where" := w ]} o))
  | OpDelete t w o => Some (t, Destroy (spread_opt {[ "where" := w ]} o))
  | OpCount t o => Some (t, Count (default ∅ o))
  | _ => None
  end.

(** The table an operation may add to the registry. *)
Definition registration {R} (op : Op R) : option string :=
  match op with
  | OpCreateTable t _ _ => Some t
  | _ => None
  end.

(** The table operations without a success line on the console. *)
Definition silent {R} (op : Op R) : bool :=
  match op with
  | OpFind _ _ | OpFindOne _ _ | OpFindById _ _ | OpCount _ _ => true
  | _ => false
  end.

(** ** The constructor *)

(** [o.k] for a key that [Object.prototype] does not have. *)
Definition read (o : Obj) (k : string) : JsValue := default JUndefined (o !! k).

Definition is_undefined (v : JsValue) : bool :=
  match v with
  | JUndefined => true
  | _ => false
  end.

(** The object given to [new Sequelize] by [new Database(options)];
    [defaultStorage] stands for
    [path.join(process.cwd(), "database.sqlite")]. *)
Definition sequelize_config (defaultStorage : string) (options : option Obj)
    : Obj :=
  let options := default ∅ options in
  let defaultOptions :=
    spread {[ "dialect" := JString "sqlite";
              "storage" := JString defaultStorage;
              "logging" := JBool false ]}
           options in
  let defaultOptions :=
    if is_undefined (read options "logging")
    then <[ "logging" := JBool false ]> defaultOptions
    else defaultOptions in
  {[ "dialect" := read defaultOptions "dialect";
     "storage" := read defaultOptions "storage";
     "logging" := read defaultOptions "logging" ]}.

(** The constructor: [new Sequelize] may throw; otherwise the registry is
    empty and the database is not connected. *)
Definition constructor (new_Sequelize : Obj → JsError + Engine)
    (defaultStorage : string) (options : option Obj) : JsError + State :=
  match new_Sequelize (sequelize_config defaultStorage options) with
  | inl error => inl error
  | inr e => inr (new_Database e)
  end.

End Facade.

Arguments Member : clear implicits.
Arguments State : clear implicits.
Arguments EngineCall : clear implicits.
Arguments AnyOp : clear implicits.
Arguments define_call {Handle} toLowerCase tableName schema options.

(** ** Two engines to run the façade against *)

Module Stub.

(** A stand-in for [String.prototype.toLowerCase] in the runs below, whose
    table names are ASCII: [A]..[Z] go to [a]..[z], as the runtime does,
    and every other byte is kept. *)
Definition lower_ascii (c : ascii) : ascii :=
  let n := nat_of_ascii c in
  if (65 <=? n)%nat && (n <=? 90)%nat then ascii_of_nat (n + 32) else c.

Fixpoint toLowerCase (s : string) : string :=
  match s with
  | EmptyString => EmptyString
  | String c rest => String (lower_ascii c) (toLowerCase rest)
  end.

(** Handles are numbered as they are defined; the engine state is the
    next free number. *)
Definition answer {R} (m : @Method R) : R :=
  match m with
  | Create data _ => JObject data
  | BulkCreate dataArray _ => JObject <$> dataArray
  | FindAll _ => []
  | FindOne _ => JNull
  | FindByPk _ => JNull
  | Update _ _ => 0%Z
  | Destroy _ => 0%Z
  | Count _ => 0%Z
  end.

Definition healthy : ∀ R, @Call nat R → nat → nat * (JsError + R) :=
  λ R c next,
    match c in Call R return nat * (JsError + R) with
    | Authenticate => (next, inr tt)
    | Define _ _ _ => (S next, inr next)
    | Sync _ => (next, inr tt)
    | Query _ _ => (next, inr (JArray [], JNull))
    | Close => (next, inr tt)
    | OnModel _ m => (next, inr (answer m))
    end.

(** An engine on which every call throws. *)
Definition down : JsError := EngineError "SequelizeConnectionError" "unreachable".

Definition failing : ∀ R, @Call nat R → nat → nat * (JsError + R) :=
  λ R _ next, (next, inl down).

Definition no_properties : nat → nat → string → JsValue := λ _ _ _, JUndefined.

Definition Object_create : Obj → option Obj → JsError + JsValue :=
  λ _ _, inr (JObject ∅).

(** A database on the healthy engine after [createTable("User", {})],
    and one whose engine has gone down after the same registration. *)
Definition with_User : State nat nat :=
  (createTable healthy toLowerCase "User" ∅ None (new_Database 0)).2.

Definition unreachable : State nat nat :=
  mkState 1 {[ "User" := 0 ]} true [] [].

End Stub.

(** ** Condition translation and paginated search

    [src/index.ts] has no condition translator and no [searchPaginated];
    the definitions of this part follow sections 3, 4.2 and 4.3 of the
    specification. *)

Module Conditions.

(** Modelled from the spec: the operator names of an operator map (the
    source has no operator table). *)
Definition operators : list string :=
  [ "gt"; "gte"; "lt"; "lte"; "ne"; "like"; "in"; "between" ].

(** Modelled from the spec: the three plain shapes of a Condition
    Specification and the paginated wrapper around one of them (the
    source has no such type).  Maps are kept as sequences of entries so
    that the conjunction comes out in the caller's order. *)
Inductive Condition :=
| ExactMatch (fields : list (string * JsValue))
| TextMatch (field term : string)
| OperatorMap (fields : list (string * list (string * JsValue))).

(** Modelled from the spec: a Condition Specification, plain or with a
    1-based page number and a page size (the source has no such type). *)
Inductive ConditionSpecification :=
| Plain (cond : Condition)
| Paginated (cond : Condition) (page pageSize : Z).

(** Modelled from the spec: the atomic constraints of a Canonical
    Predicate (absent from the source). *)
Inductive Constraint :=
| Equals (value : JsValue)
| NotEquals (value : JsValue)
| GreaterThan (value : JsValue)
| GreaterOrEqual (value : JsValue)
| LessThan (value : JsValue)
| LessOrEqual (value : JsValue)
| PatternMatch (pattern : JsValue) (caseInsensitive : bool)
| MemberOf (values : list JsValue)
| Between (low high : JsValue).

(** Modelled from the spec: a Canonical Predicate is a conjunction of
    per-field constraints (absent from the source). *)
Abbreviation CanonicalPredicate := (list (string * Constraint)).

(** Modelled from the spec: the ways a translation is refused (section
    7; the source has no translation errors). *)
Inductive TranslationError :=
| UnknownOperator (name : string)
| BetweenArity (value : JsValue)
| NotASequenceOfScalars (value : JsValue)
| NotPositive (page pageSize : Z).

(** Modelled from the spec: what the translator returns, the predicate
    and, for a paginated wrapper, the window (absent from the source). *)
Record Translation := mkTranslation {
  predicate : CanonicalPredicate;
  window : option (Z * Z)          (* (offset, limit) *)
}.

(** Modelled from the spec: the scalars an [in] sequence may hold (the
    source does not say). *)
Definition is_scalar (v : JsValue) : bool :=
  match v with
  | JNull | JBool _ | JNumber _ | JString _ => true
  | _ => false
  end.

(** Modelled from the spec: one [(operator, value)] pair of an operator
    map becomes one atomic constraint; [between] wants exactly two bounds,
    [in] a sequence of scalars, any other name is an error (the
    translator is absent from the source). *)
Definition translate_operator (name : string) (value : JsValue)
    : TranslationError + Constraint :=
  if String.eqb name "gt" then inr (GreaterThan value)
  else if String.eqb name "gte" then inr (GreaterOrEqual value)
  else if String.eqb name "lt" then inr (LessThan value)
  else if String.eqb name "lte" then inr (LessOrEqual value)
  else if String.eqb name "ne" then inr (NotEquals value)
  else if String.eqb name "like" then inr (PatternMatch value false)
  else if String.eqb name "in" then
    match value with
    | JArray items =>
        if forallb is_scalar items then inr (MemberOf items)
        else inl (NotASequenceOfScalars value)
    | _ => inl (NotASequenceOfScalars value)
    end
  else if String.eqb name "between" then
    match value with
    | JArray [low; high] => inr (Between low high)
    | _ => inl (BetweenArity value)
    end
  else inl (UnknownOperator name).

(** Modelled from the spec: the operator map of one field, its
    constraints conjoined in order; the first error stops the translation
    (absent from the source). *)
Fixpoint translate_operators (field : string) (ops : list (string * JsValue))
    : TranslationError + CanonicalPredicate :=
  match ops with
  | [] => inr []
  | (name, value) :: rest =>
      match translate_operator name value with
      | inl e => inl e
      | inr c =>
          match translate_operators field rest with
          | inl e => inl e
          | inr cs => inr ((field, c) :: cs)
          end
      end
  end.

(** Modelled from the spec: the operator maps of all the fields, conjoined
    in order (absent from the source). *)
Fixpoint translate_fields (fields : list (string * list (string * JsValue)))
    : TranslationError + CanonicalPredicate :=
  match fields with
  | [] => inr []
  | (field, ops) :: rest =>
      match translate_operators field ops with
      | inl e => inl e
      | inr cs =>
          match translate_fields rest with
          | inl e => inl e
          | inr ds => inr (cs ++ ds)
          end
      end
  end.

(** Modelled from the spec: translation of the three plain shapes
    (section 4.2; absent from the source). *)
Definition translate_condition (cond : Condition)
    : TranslationError + CanonicalPredicate :=
  match cond with
  | ExactMatch fields => inr (prod_map id Equals <$> fields)
  | TextMatch field term =>
      inr [ (field, PatternMatch (JString ("%" +:+ term +:+ "%")) true) ]
  | OperatorMap fields => translate_fields fields
  end.

(** Modelled from the spec: the translator; the paginated wrapper adds
    [(offset, limit) = ((page - 1) * pageSize, pageSize)] and wants both
    numbers positive (section 4.2; absent from the source). *)
Definition translate (spec : ConditionSpecification)
    : TranslationError + Translation :=
  match spec with
  | Plain cond =>
      match translate_condition cond with
      | inl e => inl e
      | inr p => inr (mkTranslation p None)
      end
  | Paginated cond page pageSize =>
      match translate_condition cond with
      | inl e => inl e
      | inr p =>
          if (0 <? page)%Z && (0 <? pageSize)%Z
          then inr (mkTranslation p (Some ((page - 1) * pageSize, pageSize)%Z))
          else inl (NotPositive page pageSize)
      end
  end.

Definition succeeds {E A} (r : E + A) : bool :=
  match r with
  | inr _ => true
  | inl _ => false
  end.

(** Well-formed operator names: every operator name of the
    specification is one of the eight. *)
Definition operator_names (cond : Condition) : list string :=
  match cond with
  | OperatorMap fields => fields ≫= (λ entry, entry.2.*1)
  | _ => []
  end.

Definition condition_of (spec : ConditionSpecification) : Condition :=
  match spec with
  | Plain cond | Paginated cond _ _ => cond
  end.

Definition names_well_formed (spec : ConditionSpecification) : bool :=
  forallb (λ name, bool_decide (name ∈ operators))
          (operator_names (condition_of spec)).

(** The requirements on values that translation checks besides. *)
Definition value_ok (entry : string * JsValue) : bool :=
  if String.eqb entry.1 "between" then
    match entry.2 with JArray [_; _] => true | _ => false end
  else if String.eqb entry.1 "in" then
    match entry.2 with JArray items => forallb is_scalar items | _ => false end
  else true.

Definition values_well_formed (spec : ConditionSpecification) : bool :=
  match condition_of spec with
  | OperatorMap fields => forallb (λ entry, forallb value_ok entry.2) fields
  | _ => true
  end.

Definition paging_well_formed (spec : ConditionSpecification) : bool :=
  match spec with
  | Plain _ => true
  | Paginated _ page pageSize => (0 <? page)%Z && (0 <? pageSize)%Z
  end.

Section Pagination.

(** Stored records, and the storage engine's reading of a predicate. *)
Context {Row : Type}.
Variable matches : CanonicalPredicate → Row → bool.

(** Modelled from the spec: the failures of a search before the engine
    is reached (section 7; absent from the source). *)
Inductive SearchError :=
| TableNotRegistered (tableName : string)
| NotTranslatable (e : TranslationError).

(** Modelled from the spec: the Pagination Result (section 3; absent
    from the source). *)
Record PaginationResult := mkPage {
  data : list Row;
  total : Z;
  page : Z;
  pages : Z;
  hasMore : bool
}.

(** Modelled from the spec: the rows of a table that the engine finds
    for a predicate, in storage order (the engine is outside the source). *)
Definition matching_rows (p : CanonicalPredicate) (rows : list Row)
    : list Row :=
  filter (λ r, matches p r = true) rows.

(** Modelled from the spec: [searchPaginated] (sections 3 and 4.3; absent
    from the source).  The table is resolved first, the condition is
    translated next, and the engine is asked for the count of the matching
    rows and for the window of them. *)
Definition searchPaginated (tables : gmap string (list Row))
    (tableName : string) (cond : Condition) (page pageSize : Z)
    : SearchError + PaginationResult :=
  match tables !! tableName with
  | None => inl (TableNotRegistered tableName)
  | Some rows =>
      match translate (Paginated cond page pageSize) with
      | inl e => inl (NotTranslatable e)
      | inr t =>
          let matching := matching_rows (predicate t) rows in
          let total := Z.of_nat (List.length matching) in
          let pages :=
            Qceiling (Qdiv (inject_Z total) (inject_Z pageSize)) in
          let data :=
            match window t with
            | Some (offset, limit) =>
                take (Z.to_nat limit) (drop (Z.to_nat offset) matching)
            | None => matching
            end in
          inr (mkPage data total page pages (page <? pages)%Z)
      end
  end.

End Pagination.

End Conditions.

(** * Properties of the façade *)

Section FacadeProperties.

Context {Handle Engine : Type}.
Variable respond : ∀ R, @Call Handle R → Engine → Engine * (JsError + R).
Variable handle_property : Engine → Handle → string → JsValue.
Variable Object_create : Obj → option Obj → JsError + JsValue.
Variable toLowerCase : string → string.

Implicit Types (st : State Handle Engine) (tableName : string) (h : Handle).

(** Unfolding of the computation primitives. *)
Ltac run_M :=
  repeat (progress (cbn [fst snd];
    unfold mbind, M_bind, mret, M_ret, gets, modify, throw, try_catch,
      console_log, console_error, engine, table_not_found in * )).

(** *** The registry read *)

Lemma property_own (o : gmap string Handle) k h :
  o !! k = Some h → property o k = Own h.
Proof. intros Hk. unfold property. by rewrite Hk. Qed.

Lemma property_insert (o : gmap string Handle) k h :
  property (<[k := h]> o) k = Own h.
Proof. apply property_own, lookup_insert_eq. Qed.

Lemma property_falsy (o : gmap string Handle) k :
  truthy (property o k) = false →
  o !! k = None ∧ (k ∉ Object_prototype) ∧ property o k = Undefined.
Proof.
  unfold property. destruct (o !! k) as [h|]; [done|].
  case_bool_decide; [done|]. auto.
Qed.

Lemma property_undefined (o : gmap string Handle) k :
  property o k = Undefined → truthy (property o k) = false.
Proof. by intros ->. Qed.

(** *** createTable, branch by branch *)

Lemma createTable_existing tableName schema options st :
  truthy (property (models st) tableName) = true →
  createTable respond toLowerCase tableName schema options st
  = (inr (property (models st) tableName),
     with_console
       (ConsoleLog ("ℹ️ Table '" +:+ tableName +:+ "' already defined")) st).
Proof. intros Ht. unfold createTable. run_M. by rewrite Ht. Qed.

Lemma createTable_defined tableName schema options st e' h :
  truthy (property (models st) tableName) = false →
  respond _ (define_call toLowerCase tableName schema options) (sequelize st)
    = (e', inr h) →
  createTable respond toLowerCase tableName schema options st
  = (inr (Own h),
     with_console (ConsoleLog ("✅ Table '" +:+ tableName +:+ "' created"))
       (with_model tableName h
          (with_sequelize e'
             (Called (define_call toLowerCase tableName schema options)) st))).
Proof.
  intros Ht Hr. unfold createTable, define_call in *. run_M.
  rewrite Ht, Hr. cbn. by rewrite property_insert.
Qed.

Lemma createTable_refused tableName schema options st e' error :
  truthy (property (models st) tableName) = false →
  respond _ (define_call toLowerCase tableName schema options) (sequelize st)
    = (e', inl error) →
  createTable respond toLowerCase tableName schema options st
  = (inl error,
     with_sequelize e' (Called (define_call toLowerCase tableName schema options)) st).
Proof.
  intros Ht Hr. unfold createTable, define_call in *. run_M.
  by rewrite Ht, Hr.
Qed.

(** *** Registration is idempotent *)

(** C1: when a call of [createTable] has returned a handle, a second call
    with the same table name returns that very handle whatever schema and
    options it is given; it reaches neither the registry nor the engine
    (no call is made, so the schema stored there stays as it was). *)
Theorem createTable_twice_same_handle
    tableName schema1 options1 schema2 options2 st r st1 :
  createTable respond toLowerCase tableName schema1 options1 st = (inr r, st1) →
  ∃ st2,
    createTable respond toLowerCase tableName schema2 options2 st1 = (inr r, st2) ∧
    models st2 = models st1 ∧
    sequelize st2 = sequelize st1 ∧
    calls st2 = calls st1 ∧
    isConnected st2 = isConnected st1.
Proof.
  intros Hfirst.
  assert (truthy (property (models st1) tableName) = true
          ∧ r = property (models st1) tableName) as [Ht ->].
  { destruct (truthy (property (models st) tableName)) eqn:Hold.
    - rewrite createTable_existing in Hfirst by done.
      injection Hfirst as <- <-. by cbn.
    - destruct (respond _ (define_call toLowerCase tableName schema1 options1)
                  (sequelize st)) as [e' [error|h]] eqn:Hr.
      + erewrite createTable_refused in Hfirst by done. discriminate.
      + erewrite createTable_defined in Hfirst by done.
        injection Hfirst as <- <-. cbn. by rewrite property_insert. }
  eexists. split; [by apply createTable_existing|]. by cbn.
Qed.

(** C2: on a first registration the attributes handed to the engine are
    the caller's fields laid over the three system fields: a field the
    caller declares keeps the caller's descriptor, any other field has
    the system descriptor ([id]: integer, primary key, auto-increment;
    [createdAt] and [updatedAt]: dates defaulting to now) or is absent.
    The handle that [define] returns for these attributes is the one
    stored under the table name and returned to the caller; when
    [define] throws, the error reaches the caller and nothing is
    stored. *)
Theorem createTable_final_schema tableName schema options st :
  property (models st) tableName = Undefined →
  ∃ attributes opts,
    calls (createTable respond toLowerCase tableName schema options st).2
      = calls st ++ [Called (Define tableName attributes opts)] ∧
    (∀ field descriptor,
       schema !! field = Some descriptor →
       attributes !! field = Some descriptor) ∧
    (∀ field,
       schema !! field = None →
       attributes !! field = systemFields !! field) ∧
    dom systemFields = {[ "id"; "createdAt"; "updatedAt" ]} ∧
    systemFields !! "id"
      = Some (JObject {[ "type" := JType INTEGER;
                         "primaryKey" := JBool true;
                         "autoIncrement" := JBool true ]}) ∧
    systemFields !! "createdAt"
      = Some (JObject {[ "type" := JType DATE;
                         "defaultValue" := JType NOW ]}) ∧
    systemFields !! "updatedAt"
      = Some (JObject {[ "type" := JType DATE;
                         "defaultValue" := JType NOW ]}) ∧
    match (respond _ (Define tableName attributes opts) (sequelize st)).2 with
    | inr h =>
        (createTable respond toLowerCase tableName schema options st).1
        = inr (Own h) ∧
        models (createTable respond toLowerCase tableName schema options st).2
          !! tableName = Some h
    | inl error =>
        (createTable respond toLowerCase tableName schema options st).1
        = inl error ∧
        models (createTable respond toLowerCase tableName schema options st).2
        = models st
    end.
Proof.
  intros Hnew%property_undefined.
  exists (spread systemFields schema),
    (spread {[ "tableName" := JString (toLowerCase tableName) ]}
            (default ∅ options)).
  split.
  { destruct (respond _ (define_call toLowerCase tableName schema options)
                (sequelize st)) as [e' [error|h]] eqn:Hr.
    - by erewrite createTable_refused.
    - by erewrite createTable_defined. }
  split; [|split; [|split; [|split; [done|split; [done|split; [done|]]]]]].
  - intros field descriptor Hf. unfold spread.
    by apply lookup_union_Some_l.
  - intros field Hf. unfold spread. by apply lookup_union_r.
  - unfold systemFields. rewrite !dom_insert_L, dom_singleton_L. set_solver.
  - fold (define_call (Handle:=Handle) toLowerCase tableName schema options).
    destruct (respond _ (define_call toLowerCase tableName schema options)
                (sequelize st)) as [e' [error|h]] eqn:Hr; cbn [snd].
    + by erewrite createTable_refused.
    + erewrite createTable_defined by done. cbn.
      split; [done|]. apply lookup_insert_eq.
Qed.

(** *** The name used for storage and the name used in the registry *)

(** C8, as amended: a first registration that returns has made one
    [define] call whose options carry, as [tableName], the caller's own
    [tableName] option when there is one and the lower-cased table name
    (whatever [String.prototype.toLowerCase] makes of it) otherwise; the
    handle which that call returned is the one handed back and stored in
    the registry under the name as the caller wrote it, and no other
    entry changes. *)
Theorem createTable_storage_name tableName schema options st r st' :
  property (models st) tableName = Undefined →
  createTable respond toLowerCase tableName schema options st = (inr r, st') →
  ∃ h attributes opts,
    calls st' = calls st ++ [Called (Define tableName attributes opts)] ∧
    respond _ (Define tableName attributes opts) (sequelize st)
    = (sequelize st', inr h) ∧
    opts !! "tableName"
      = Some (match default ∅ options !! "tableName" with
              | Some name => name
              | None => JString (toLowerCase tableName)
              end) ∧
    r = Own h ∧
    models st' !! tableName = Some h ∧
    (∀ other, other ≠ tableName → models st' !! other = models st !! other).
Proof.
  intros Hnew%property_undefined Hrun.
  destruct (respond _ (define_call toLowerCase tableName schema options)
              (sequelize st)) as [e' [error|h]] eqn:Hr.
  { erewrite createTable_refused in Hrun by done. discriminate. }
  erewrite createTable_defined in Hrun by done.
  injection Hrun as <- <-.
  exists h, (spread systemFields schema),
    (spread {[ "tableName" := JString (toLowerCase tableName) ]}
            (default ∅ options)).
  split; [done|]. split; [exact Hr|]. split.
  { unfold spread. destruct (default ∅ options !! "tableName") eqn:Ho.
    - by apply lookup_union_Some_l.
    - rewrite lookup_union_r by done. apply lookup_singleton_eq. }
  split; [done|]. cbn. split; [apply lookup_insert_eq|].
  intros other Hne. by apply lookup_insert_ne.
Qed.

(** *** The table operations *)

Lemma run_request {R} (op : Op R) tableName method :
  request op = Some (tableName, method) →
  ∃ success failure,
    run respond handle_property Object_create toLowerCase op
    = on_table respond Object_create tableName method success failure.
Proof. destruct op; intros [= <- <-]; cbn; eauto. Qed.

Lemma on_table_unregistered {R} tableName (method : Method R) success failure st :
  property (models st) tableName = Undefined →
  on_table respond Object_create tableName method success failure st
  = (inl (Error ("Table '" +:+ tableName +:+ "' not found")), st).
Proof. intros Hp. unfold on_table. run_M. by rewrite Hp. Qed.

Lemma on_table_engine_error {R} tableName (method : Method R) success failure
    st h e' error :
  models st !! tableName = Some h →
  respond R (OnModel h method) (sequelize st) = (e', inl error) →
  on_table respond Object_create tableName method success failure st
  = (inl error,
     mkState e' (models st) (isConnected st)
       (calls st ++ [Called (OnModel h method)])
       (console st ++ [ConsoleError failure error])).
Proof.
  intros Hh%property_own Hr. unfold on_table, invoke. run_M.
  rewrite Hh; cbn. by rewrite Hh, Hr.
Qed.

Lemma on_table_engine_result {R} tableName (method : Method R) success failure
    st h e' result :
  models st !! tableName = Some h →
  respond R (OnModel h method) (sequelize st) = (e', inr result) →
  on_table respond Object_create tableName method success failure st
  = (inr result,
     mkState e' (models st) (isConnected st)
       (calls st ++ [Called (OnModel h method)])
       (console st ++ match success result with
                      | Some line => [ConsoleLog line]
                      | None => []
                      end)).
Proof.
  intros Hh%property_own Hr. unfold on_table, invoke. run_M.
  rewrite Hh; cbn. rewrite Hh, Hr. destruct (success result); cbn; [done|].
  by rewrite app_nil_r; destruct st.
Qed.

(** A table operation on a name that holds no handle never reaches the
    engine, whether the name is unknown or inherited. *)
Lemma on_table_no_handle {R} tableName (method : Method R) success failure st :
  models st !! tableName = None →
  ∀ st', st' = (on_table respond Object_create tableName method
                  success failure st).2 →
  sequelize st' = sequelize st ∧ calls st' = calls st ∧
  models st' = models st ∧ isConnected st' = isConnected st.
Proof.
  intros Hn st' ->.
  assert (property (models st) tableName = Inherited tableName
          ∨ property (models st) tableName = Undefined) as [Hp|Hp].
  { unfold property. rewrite Hn. case_bool_decide; auto. }
  2: { by rewrite on_table_unregistered. }
  unfold on_table, invoke. run_M. rewrite Hp; cbn. rewrite Hp.
  unfold native.
  destruct method; run_M; try done.
  destruct (String.eqb tableName "constructor"); [|done].
  by destruct (Object_create data options) as [error|v]; cbn;
    [|destruct (success v)].
Qed.

(** The rejection the guard performs: an operation on a name that
    resolves to nothing fails with the table-not-found error and leaves
    the state, engine included, as it was. *)
Lemma unregistered_table_rejected {R} (op : Op R) tableName method st :
  request op = Some (tableName, method) →
  property (models st) tableName = Undefined →
  run respond handle_property Object_create toLowerCase op st
  = (inl (Error ("Table '" +:+ tableName +:+ "' not found")), st).
Proof.
  intros (success & failure & ->)%run_request Hp.
  by apply on_table_unregistered.
Qed.

Lemma unregistered_table_no_engine_call {R} (op : Op R) tableName method st :
  request op = Some (tableName, method) →
  models st !! tableName = None →
  calls (run respond handle_property Object_create toLowerCase op st).2 = calls st.
Proof.
  intros (success & failure & ->)%run_request Hn.
  by eapply on_table_no_handle.
Qed.

(** C3, where the guard lets a name through: [toString] was never
    registered, yet [this.models["toString"]] is the function inherited
    from [Object.prototype], so the guard does not throw; the call of
    [create] on it raises a [TypeError], which the [catch] reports and
    rethrows.  The caller sees that [TypeError], not the table-not-found
    error; the engine is not called. *)
Theorem insert_inherited_name_not_rejected (e : Engine) data options :
  insert respond Object_create "toString" data options (new_Database e)
  = (inl (TypeError "this.models[tableName].create is not a function"),
     mkState e ∅ false []
       [ConsoleError "❌ Error inserting into 'toString':"
          (TypeError "this.models[tableName].create is not a function")]).
Proof. reflexivity. Qed.

(** *** Engine failures *)

(** C7: a table operation on a registered table whose engine call throws
    rethrows the very same error after one [console.error] line; the
    engine was called exactly once, and registry and connection flag are
    what they were. *)
Theorem engine_error_rethrown {R} (op : Op R) tableName method h st e' error :
  request op = Some (tableName, method) →
  models st !! tableName = Some h →
  respond R (OnModel h method) (sequelize st) = (e', inl error) →
  ∃ line,
    run respond handle_property Object_create toLowerCase op st
    = (inl error,
       mkState e' (models st) (isConnected st)
         (calls st ++ [Called (OnModel h method)])
         (console st ++ [ConsoleError line error])).
Proof.
  intros (success & failure & ->)%run_request Hh Hr.
  exists failure. by apply on_table_engine_error.
Qed.

(** *** The connection *)

(** C6: [connect] always returns a boolean.  When [authenticate]
    succeeds it returns [true] and the flag is set; when [authenticate]
    throws it returns [false], the error is reported once on the console
    and the flag keeps its value, so a database that was not connected
    stays so.  The registry is not touched. *)
Theorem connect_never_throws st :
  ∃ b st',
    connect respond st = (inr b, st') ∧
    models st' = models st ∧
    match (respond unit Authenticate (sequelize st)).2 with
    | inr _ => b = true ∧ isConnected st' = true
    | inl error =>
        b = false ∧ isConnected st' = isConnected st ∧
        console st'
        = console st
          ++ [ConsoleError "❌ Unable to connect to database:" error]
    end.
Proof.
  unfold connect. run_M.
  destruct (respond unit Authenticate (sequelize st)) as [e' [error|[]]];
    cbn; eauto 10.
Qed.

(** C10: [close] always returns.  When the engine's [close] succeeds the
    flag becomes [false]; when it throws, the error is reported once on
    the console and swallowed, and the flag keeps its value. *)
Theorem close_never_throws st :
  ∃ st',
    close respond st = (inr tt, st') ∧
    models st' = models st ∧
    match (respond unit Close (sequelize st)).2 with
    | inr _ => isConnected st' = false
    | inl error =>
        isConnected st' = isConnected st ∧
        console st'
        = console st ++ [ConsoleError "❌ Error closing database:" error]
    end.
Proof.
  unfold close. run_M.
  destruct (respond unit Close (sequelize st)) as [e' [error|[]]];
    cbn; eauto 10.
Qed.

(** *** Stability of the registry *)

Lemma on_table_models {R} tableName (method : Method R) success failure st :
  models (on_table respond Object_create tableName method
            success failure st).2 = models st.
Proof.
  destruct (models st !! tableName) as [h|] eqn:Hh.
  - destruct (respond R (OnModel h method) (sequelize st))
      as [e' [error|result]] eqn:Hr.
    + by erewrite on_table_engine_error.
    + by erewrite on_table_engine_result.
  - by eapply on_table_no_handle.
Qed.

Lemma createTable_keeps tableName schema options st k h :
  models st !! k = Some h →
  models (createTable respond toLowerCase tableName schema options st).2 !! k = Some h.
Proof.
  intros Hk.
  destruct (truthy (property (models st) tableName)) eqn:Ht.
  { by rewrite createTable_existing. }
  destruct (respond _ (define_call toLowerCase tableName schema options)
              (sequelize st)) as [e' [error|h']] eqn:Hr.
  { by erewrite createTable_refused. }
  erewrite createTable_defined by done. cbn.
  apply property_falsy in Ht as (Hnone & _ & _).
  rewrite lookup_insert_ne; [done|]. intros ->. congruence.
Qed.

(** No method removes or replaces an entry. *)
Lemma run_keeps {R} (op : Op R) st k h :
  models st !! k = Some h →
  models (run respond handle_property Object_create toLowerCase op st).2 !! k = Some h.
Proof.
  intros Hk.
  destruct (request op) as [[tableName method]|] eqn:Hreq.
  { apply run_request in Hreq as (success & failure & ->).
    by rewrite on_table_models. }
  destruct op; try discriminate; cbn [run].
  - unfold connect. run_M.
    by destruct (respond _ _ _) as [e' [error|[]]].
  - by apply createTable_keeps.
  - unfold syncTables. run_M.
    by destruct (respond _ _ _) as [e' [error|[]]].
  - unfold query. run_M.
    by destruct (respond _ _ _) as [e' [error|[results metadata]]].
  - unfold getTableInfo, read_property. run_M.
    by destruct (truthy _).
  - done.
  - unfold close. run_M.
    by destruct (respond _ _ _) as [e' [error|[]]].
  - done.
  - done.
Qed.

Lemma run_all_keeps ops st k h :
  models st !! k = Some h →
  models (run_all respond handle_property Object_create toLowerCase ops st) !! k = Some h.
Proof.
  revert st. induction ops as [|[R op] ops IH]; intros st Hk; [done|].
  cbn. by apply IH, run_keeps.
Qed.

(** C9: once [tableName] holds the handle [h], it still does after any
    sequence of calls of the public methods: the entry is neither removed
    nor replaced, [getModel] returns [h], [getTableInfo] describes [h],
    and the table operations send their method call to [h]. *)
Theorem registry_entry_stable ops tableName h st :
  models st !! tableName = Some h →
  ∃ st',
    st' = run_all respond handle_property Object_create toLowerCase ops st ∧
    models st' !! tableName = Some h ∧
    getModel tableName st' = (inr (Own h), st') ∧
    getTableInfo handle_property tableName st'
    = (inr (JObject
              {[ "tableName" := JString tableName;
                 "attributes"
                   := handle_property (sequelize st') h "rawAttributes";
                 "associations"
                   := handle_property (sequelize st') h "associations" ]}),
       st') ∧
    ∀ R (method : Method R),
      invoke respond Object_create tableName method st'
      = engine respond (OnModel h method) st'.
Proof.
  intros Hk. eexists. split; [done|].
  pose proof (run_all_keeps ops _ _ _ Hk) as Hk'.
  pose proof (property_own _ _ _ Hk') as Hp.
  split; [done|]. split; [|split].
  - unfold getModel. run_M. by rewrite Hp.
  - unfold getTableInfo, read_property. run_M. rewrite Hp; cbn.
    by rewrite !Hp.
  - intros R method. unfold invoke. run_M. by rewrite Hp.
Qed.

End FacadeProperties.

(** *** The façade on the two engines *)

Example toLowerCase_User : Stub.toLowerCase "User" = "user".
Proof. reflexivity. Qed.

Example createTable_inherited_name :
  (createTable Stub.healthy Stub.toLowerCase "constructor" ∅ None (new_Database 0)).1
  = inr (Inherited "constructor").
Proof. reflexivity. Qed.

Example insert_unregistered :
  insert Stub.healthy Stub.Object_create "Ghost" ∅ None (new_Database 0)
  = (inl (Error "Table 'Ghost' not found"), new_Database 0).
Proof. reflexivity. Qed.

Example insert_constructor_returns :
  (insert Stub.healthy Stub.Object_create "constructor" ∅ None
     (new_Database 0)).1
  = inr (JObject ∅).
Proof. reflexivity. Qed.

(** Registering ["User"] again, now with a string [id], on the healthy
    engine. *)
Lemma createTable_twice_same_handle_witness :
  ∃ st2,
    createTable Stub.healthy Stub.toLowerCase "User" {[ "id" := JType STRING ]} None Stub.with_User
    = (inr (Own 0), st2) ∧
    models st2 = models Stub.with_User ∧
    sequelize st2 = sequelize Stub.with_User ∧
    calls st2 = calls Stub.with_User ∧
    isConnected st2 = isConnected Stub.with_User.
Proof.
  apply (createTable_twice_same_handle Stub.healthy Stub.toLowerCase "User" ∅ None
           {[ "id" := JType STRING ]} None (new_Database 0)).
  reflexivity.
Defined.

(** A first registration whose schema declares [id] and [name]. *)
Lemma createTable_final_schema_witness :
  ∃ attributes opts,
    calls (createTable Stub.healthy Stub.toLowerCase "User"
             {[ "id" := JType STRING; "name" := JType STRING ]} None
             (new_Database 0)).2
      = [] ++ [Called (Define "User" attributes opts)] ∧
    (∀ field descriptor,
       ({[ "id" := JType STRING; "name" := JType STRING ]} : Obj) !! field
         = Some descriptor →
       attributes !! field = Some descriptor) ∧
    (∀ field,
       ({[ "id" := JType STRING; "name" := JType STRING ]} : Obj) !! field
         = None →
       attributes !! field = systemFields !! field) ∧
    dom systemFields = {[ "id"; "createdAt"; "updatedAt" ]} ∧
    systemFields !! "id"
      = Some (JObject {[ "type" := JType INTEGER;
                         "primaryKey" := JBool true;
                         "autoIncrement" := JBool true ]}) ∧
    systemFields !! "createdAt"
      = Some (JObject {[ "type" := JType DATE;
                         "defaultValue" := JType NOW ]}) ∧
    systemFields !! "updatedAt"
      = Some (JObject {[ "type" := JType DATE;
                         "defaultValue" := JType NOW ]}) ∧
    match (Stub.healthy _ (Define "User" attributes opts)
             (sequelize (new_Database 0 : State nat nat))).2 with
    | inr h =>
        (createTable Stub.healthy Stub.toLowerCase "User"
           {[ "id" := JType STRING; "name" := JType STRING ]} None
           (new_Database 0)).1
        = inr (Own h) ∧
        models (createTable Stub.healthy Stub.toLowerCase "User"
                  {[ "id" := JType STRING; "name" := JType STRING ]} None
                  (new_Database 0)).2
          !! "User" = Some h
    | inl error =>
        (createTable Stub.healthy Stub.toLowerCase "User"
           {[ "id" := JType STRING; "name" := JType STRING ]} None
           (new_Database 0)).1
        = inl error ∧
        models (createTable Stub.healthy Stub.toLowerCase "User"
                  {[ "id" := JType STRING; "name" := JType STRING ]} None
                  (new_Database 0)).2
        = models (new_Database 0 : State nat nat)
    end.
Proof.
  apply (createTable_final_schema Stub.healthy Stub.toLowerCase "User"
           {[ "id" := JType STRING; "name" := JType STRING ]} None
           (new_Database 0)).
  reflexivity.
Defined.

(** The caller's [id] replaces the system [id]. *)
Example createTable_caller_id_wins :
  ∃ attributes opts,
    calls (createTable Stub.healthy Stub.toLowerCase "User" {[ "id" := JType STRING ]} None
             (new_Database 0)).2
      = [Called (Define "User" attributes opts)] ∧
    attributes !! "id" = Some (JType STRING) ∧
    attributes !! "createdAt" = systemFields !! "createdAt".
Proof. do 2 eexists. split; [reflexivity|]. split; reflexivity. Qed.

(** ["User"] is defined for storage as ["user"] and kept in the registry
    as ["User"]. *)
Lemma createTable_storage_name_witness :
  ∃ h attributes opts,
    calls Stub.with_User
      = calls (new_Database 0) ++ [Called (Define "User" attributes opts)] ∧
    Stub.healthy _ (Define "User" attributes opts)
      (sequelize (new_Database 0 : State nat nat))
    = (sequelize Stub.with_User, inr h) ∧
    opts !! "tableName"
      = Some (match default ∅ (None : option Obj) !! "tableName" with
              | Some name => name
              | None => JString (Stub.toLowerCase "User")
              end) ∧
    Own 0 = Own h ∧
    models Stub.with_User !! "User" = Some h ∧
    (∀ other, other ≠ "User" →
       models Stub.with_User !! other = models (new_Database 0) !! other).
Proof.
  apply (createTable_storage_name Stub.healthy Stub.toLowerCase "User" ∅ None
           (new_Database 0) (Own 0) Stub.with_User); reflexivity.
Defined.

(** C8 as stated fails when the caller's options name a table: the
    [define] call made for ["User"] carries ["People"], not ["user"]. *)
Lemma createTable_storage_name_overridden :
  ∃ attributes opts,
    calls (createTable Stub.healthy Stub.toLowerCase "User" ∅
             (Some {[ "tableName" := JString "People" ]})
             (new_Database 0)).2
      = [Called (Define "User" attributes opts)] ∧
    opts !! "tableName" = Some (JString "People") ∧
    JString "People" ≠ JString (Stub.toLowerCase "User").
Proof. do 2 eexists. split; [reflexivity|]. split; [reflexivity|done]. Qed.

(** An [update] on a registered table while the engine is down. *)
Lemma engine_error_rethrown_witness :
  ∃ line,
    run Stub.failing Stub.no_properties Stub.Object_create Stub.toLowerCase
      (OpUpdate "User" {[ "age" := JNumber 30 ]} (JObject ∅) None)
      Stub.unreachable
    = (inl Stub.down,
       mkState 1 (models Stub.unreachable) (isConnected Stub.unreachable)
         (calls Stub.unreachable
          ++ [Called (OnModel 0
                        (Update {[ "age" := JNumber 30 ]}
                           (spread_opt {[ "where" := JObject ∅ ]} None)))])
         (console Stub.unreachable ++ [ConsoleError line Stub.down])).
Proof.
  apply (engine_error_rethrown Stub.failing Stub.no_properties
           Stub.Object_create Stub.toLowerCase
           (OpUpdate "User" {[ "age" := JNumber 30 ]} (JObject ∅) None)
           "User" _ 0 Stub.unreachable 1 Stub.down); reflexivity.
Defined.

(** ["User"] survives a second registration, the registration of
    ["user"], an insert and a close. *)
Lemma registry_entry_stable_witness :
  ∃ st',
    st' = run_all Stub.healthy Stub.no_properties Stub.Object_create Stub.toLowerCase
            [ AnOp (OpCreateTable "User" {[ "id" := JType STRING ]} None);
              AnOp (OpCreateTable "user" ∅ None);
              AnOp (OpInsert "User" ∅ None);
              AnOp OpClose ]
            Stub.with_User ∧
    models st' !! "User" = Some 0 ∧
    getModel "User" st' = (inr (Own 0), st') ∧
    getTableInfo Stub.no_properties "User" st'
    = (inr (JObject
              {[ "tableName" := JString "User";
                 "attributes"
                   := Stub.no_properties (sequelize st') 0 "rawAttributes";
                 "associations"
                   := Stub.no_properties (sequelize st') 0 "associations" ]}),
       st') ∧
    ∀ R (method : Method R),
      invoke Stub.healthy Stub.Object_create "User" method st'
      = engine Stub.healthy (OnModel 0 method) st'.
Proof.
  apply (registry_entry_stable Stub.healthy Stub.no_properties
           Stub.Object_create Stub.toLowerCase _ "User" 0 Stub.with_User).
  reflexivity.
Defined.

(** * Properties of the translator and of paginated search *)

Import Conditions.

Lemma translate_operator_succeeds name value :
  succeeds (translate_operator name value)
  = bool_decide (name ∈ operators) && value_ok (name, value).
Proof.
  unfold translate_operator, value_ok. cbn [fst snd].
  repeat match goal with
         | |- context [String.eqb name ?s] =>
             destruct (String.eqb_spec name s) as [->|?]
         end;
    try reflexivity.
  - destruct value as [| | | | | |items|]; try reflexivity.
    by destruct (forallb is_scalar items).
  - by destruct value as [| | | | | |[|? [|? [|? ?]]]|].
  - rewrite bool_decide_eq_false_2; [done|].
    unfold operators. rewrite !elem_of_cons, elem_of_nil. tauto.
Qed.

Lemma translate_operators_succeeds field ops :
  succeeds (translate_operators field ops)
  = forallb (λ name, bool_decide (name ∈ operators)) ops.*1
    && forallb value_ok ops.
Proof.
  induction ops as [|[name value] ops IH]; [done|]. cbn.
  pose proof (translate_operator_succeeds name value) as Hone.
  destruct (translate_operator name value) as [e|c]; cbn in Hone.
  - symmetry in Hone. apply andb_false_iff in Hone as [-> | ->]; [done|].
    cbn. by rewrite andb_false_r.
  - symmetry in Hone. apply andb_true_iff in Hone as [-> ->]. cbn.
    rewrite <- IH. by destruct (translate_operators field ops).
Qed.

Lemma translate_fields_succeeds fields :
  succeeds (translate_fields fields)
  = forallb (λ name, bool_decide (name ∈ operators))
      (fields ≫= (λ entry, entry.2.*1))
    && forallb (λ entry, forallb value_ok entry.2) fields.
Proof.
  induction fields as [|[field ops] fields IH]; [done|]. cbn.
  rewrite forallb_app.
  pose proof (translate_operators_succeeds field ops) as Hone.
  destruct (translate_operators field ops) as [e|cs]; cbn in Hone.
  - symmetry in Hone. apply andb_false_iff in Hone as [-> | ->]; [done|].
    by rewrite andb_false_r.
  - symmetry in Hone. apply andb_true_iff in Hone as [-> ->]. cbn.
    rewrite <- IH. by destruct (translate_fields fields).
Qed.

Lemma translate_condition_succeeds cond :
  succeeds (translate_condition cond)
  = names_well_formed (Plain cond) && values_well_formed (Plain cond).
Proof. destruct cond; [done..|]. apply translate_fields_succeeds. Qed.

(** C5, as amended: translation succeeds exactly when every operator
    name is one of the eight, every [between] has two bounds, every [in]
    has a sequence of scalars, and the page numbers of a paginated
    wrapper are positive; in particular a specification with an operator
    name outside the eight is refused with an error. *)
Theorem translate_succeeds_iff_well_formed spec :
  succeeds (translate spec)
  = names_well_formed spec && values_well_formed spec
    && paging_well_formed spec
  ∧ ∀ name,
      name ∈ operator_names (condition_of spec) →
      name ∉ operators →
      ∃ e, translate spec = inl e.
Proof.
  assert (succeeds (translate spec)
          = names_well_formed spec && values_well_formed spec
            && paging_well_formed spec) as Heq.
  { destruct spec as [cond|cond page pageSize]; cbn.
    - pose proof (translate_condition_succeeds cond) as Hc.
      destruct (translate_condition cond); cbn in *;
        rewrite <- Hc; by rewrite ?andb_true_r.
    - pose proof (translate_condition_succeeds cond) as Hc.
      destruct (translate_condition cond); cbn in *;
        change (names_well_formed (Paginated cond page pageSize))
          with (names_well_formed (Plain cond));
        change (values_well_formed (Paginated cond page pageSize))
          with (values_well_formed (Plain cond));
        rewrite <- Hc; [done|].
      by destruct ((0 <? page)%Z && (0 <? pageSize)%Z). }
  split; [done|]. intros name Hin Hout.
  destruct (names_well_formed spec) eqn:Hnames.
  - unfold names_well_formed in Hnames.
    rewrite forallb_forall in Hnames.
    apply list_elem_of_In, Hnames, bool_decide_eq_true in Hin. done.
  - cbn in Heq. destruct (translate spec) as [e|t]; [eauto|done].
Qed.

(** C5 as stated fails on a [between] with one bound: the names are well
    formed, the translation is an error. *)
Lemma translate_rejects_short_between :
  names_well_formed
    (Plain (OperatorMap [ ("age", [ ("between", JArray [JNumber 18]) ]) ]))
  = true ∧
  translate
    (Plain (OperatorMap [ ("age", [ ("between", JArray [JNumber 18]) ]) ]))
  = inl (BetweenArity (JArray [JNumber 18])).
Proof. split; reflexivity. Qed.

Example translate_exact_match :
  translate (Plain (ExactMatch [ ("age", JNumber 25); ("active", JBool true) ]))
  = inr (mkTranslation
           [ ("age", Equals (JNumber 25)); ("active", Equals (JBool true)) ]
           None).
Proof. reflexivity. Qed.

Example translate_operator_map :
  translate
    (Plain (OperatorMap [ ("age", [ ("gte", JNumber 18); ("lte", JNumber 65) ]) ]))
  = inr (mkTranslation
           [ ("age", GreaterOrEqual (JNumber 18));
             ("age", LessOrEqual (JNumber 65)) ]
           None).
Proof. reflexivity. Qed.

Example translate_unknown_operator :
  translate (Plain (OperatorMap [ ("age", [ ("approx", JNumber 18) ]) ]))
  = inl (UnknownOperator "approx").
Proof. reflexivity. Qed.

Example translate_paginated :
  translate (Paginated (TextMatch "username" "john") 2 10)
  = inr (mkTranslation
           [ ("username", PatternMatch (JString "%john%") true) ]
           (Some (10, 10)%Z)).
Proof. reflexivity. Qed.

(** *** Pagination *)

(** The ceiling of a quotient by a positive number, in integers. *)
Lemma ceiling_bounds (a b : Z) :
  (0 < b)%Z →
  ((Qceiling (inject_Z a / inject_Z b) - 1) * b < a
   ≤ Qceiling (inject_Z a / inject_Z b) * b)%Z.
Proof.
  intros Hb. destruct b as [|q|q]; try lia.
  unfold Qceiling, Qfloor, Qdiv, Qinv, Qmult, Qopp, inject_Z. cbn.
  rewrite Z.mul_1_r, Pos.mul_1_l.
  pose proof (Z.div_mod (- a) (Z.pos q) ltac:(lia)) as Hdiv.
  pose proof (Z.mod_pos_bound (- a) (Z.pos q) ltac:(lia)) as Hmod.
  nia.
Qed.

Section SearchProperties.

Context {Row : Type}.
Variable matches : CanonicalPredicate → Row → bool.

(** C4, as amended: on a registered table, with a condition the
    translator accepts and positive [page] and [pageSize],
    [searchPaginated] returns a result whose [total] counts the matching rows, whose [pages] is the
    ceiling of [total / pageSize] (the least number of pages that hold
    all the rows), whose [hasMore] tells whether [page < pages] (that is,
    whether rows remain after this page), and whose [data] is the window
    of at most [pageSize] matching rows after the first
    [(page - 1) * pageSize]; with 25 matching rows, page 2 of size 10 has
    10 rows, 3 pages and more to come. *)
Theorem searchPaginated_result
    (tables : gmap string (list Row)) tableName rows cond pred
    (page pageSize : Z) :
  tables !! tableName = Some rows →
  translate_condition cond = inr pred →
  (0 < page)%Z →
  (0 < pageSize)%Z →
  ∃ r,
    searchPaginated matches tables tableName cond page pageSize = inr r ∧
    total r = Z.of_nat (List.length (matching_rows matches pred rows)) ∧
    Conditions.page r = page ∧
    pages r = Qceiling (inject_Z (total r) / inject_Z pageSize) ∧
    ((pages r - 1) * pageSize < total r ≤ pages r * pageSize)%Z ∧
    hasMore r = bool_decide (page < pages r)%Z ∧
    (hasMore r = true ↔ (page * pageSize < total r)%Z) ∧
    data r = take (Z.to_nat pageSize)
               (drop (Z.to_nat ((page - 1) * pageSize))
                  (matching_rows matches pred rows)) ∧
    List.length (data r) ≤ Z.to_nat pageSize ∧
    (total r = 25%Z → page = 2%Z → pageSize = 10%Z →
     List.length (data r) = 10 ∧ pages r = 3%Z ∧ hasMore r = true).
Proof.
  intros Htable Hcond Hpage Hsize.
  unfold searchPaginated, translate. rewrite Htable, Hcond.
  destruct (Z.ltb_spec 0 page) as [_|?]; [|lia].
  destruct (Z.ltb_spec 0 pageSize) as [_|?]; [|lia].
  cbn [andb predicate window].
  set (matching := matching_rows matches pred rows).
  set (n := Z.of_nat (List.length matching)).
  pose proof (ceiling_bounds n pageSize Hsize) as Hceil.
  set (p := Qceiling (inject_Z n / inject_Z pageSize)) in *.
  eexists. split; [reflexivity|]. cbn.
  assert ((page <? p)%Z = bool_decide (page < p)%Z) as Hmore.
  { destruct (Z.ltb_spec page p).
    - by rewrite bool_decide_eq_true_2.
    - rewrite bool_decide_eq_false_2; [done|lia]. }
  repeat split; try done.
  - lia.
  - lia.
  - rewrite Hmore, bool_decide_eq_true. nia.
  - rewrite Hmore, bool_decide_eq_true. nia.
  - rewrite length_take. lia.
  - rewrite length_take, length_drop. fold n in H. subst pageSize page. lia.
  - subst pageSize. lia.
  - rewrite Hmore, bool_decide_eq_true. subst pageSize page. lia.
Qed.

End SearchProperties.

(** Fifty rows of which the even ones match: page 2 of size 10 over the
    25 matching rows. *)
Lemma searchPaginated_result_witness :
  ∃ r,
    searchPaginated (λ _ (row : nat), Nat.even row)
      {[ "User" := seq 0 50 ]} "User"
      (ExactMatch [("isActive", JBool true)]) 2 10 = inr r ∧
    List.length (data r) = 10 ∧ total r = 25%Z ∧ Conditions.page r = 2%Z ∧
    pages r = 3%Z ∧ hasMore r = true ∧
    data r = [20; 22; 24; 26; 28; 30; 32; 34; 36; 38].
Proof.
  destruct (searchPaginated_result (λ _ (row : nat), Nat.even row)
              {[ "User" := seq 0 50 ]} "User" (seq 0 50)
              (ExactMatch [("isActive", JBool true)])
              [("isActive", Equals (JBool true))] 2 10)
    as (r & Hr & Htotal & Hpage & _ & _ & _ & _ & Hdata & _ & Hexample);
    [reflexivity..|].
  exists r. split; [exact Hr|].
  destruct (Hexample Htotal eq_refl eq_refl) as (Hlen & Hpages & Hmore).
  repeat split; try assumption.
Defined.

(** C4 as stated fails on a condition the translator refuses: the table
    is registered and both page numbers are positive, yet the search ends
    in the translation error and returns no page. *)
Lemma searchPaginated_untranslatable :
  ({[ "User" := seq 0 50 ]} : gmap string (list nat)) !! "User"
  = Some (seq 0 50) ∧
  (0 < 2)%Z ∧ (0 < 10)%Z ∧
  searchPaginated (λ _ (row : nat), Nat.even row)
    {[ "User" := seq 0 50 ]} "User"
    (OperatorMap [ ("age", [ ("approx", JNumber 18) ]) ]) 2 10
  = inl (NotTranslatable (UnknownOperator "approx")).
Proof. repeat split; reflexivity. Qed.

Example searchPaginated_last_page :
  ∃ r,
    searchPaginated (λ _ (row : nat), Nat.even row)
      {[ "User" := seq 0 50 ]} "User"
      (ExactMatch [("isActive", JBool true)]) 3 10 = inr r ∧
    List.length (data r) = 5 ∧ hasMore r = false.
Proof. eexists. split; [reflexivity|]. split; reflexivity. Qed.

Example searchPaginated_unregistered :
  searchPaginated (λ _ (row : nat), true) ∅ "User" (ExactMatch []) 1 10
  = inl (TableNotRegistered "User").
Proof. reflexivity. Qed.

(** * Further properties of the façade *)

Section FacadeBehaviour.

Context {Handle Engine : Type}.
Variable respond : ∀ R, @Call Handle R → Engine → Engine * (JsError + R).
Variable handle_property : Engine → Handle → string → JsValue.
Variable Object_create : Obj → option Obj → JsError + JsValue.
Variable toLowerCase : string → string.

Implicit Types (st : State Handle Engine) (tableName : string) (h : Handle).

Ltac step_M :=
  repeat (progress (cbn [fst snd];
    unfold mbind, M_bind, mret, M_ret, gets, modify, throw, try_catch,
      console_log, console_error, engine, table_not_found in * )).

(** *** syncTables and query *)

(** X1: [syncTables] always returns a boolean.  It makes one [sync] call
    carrying the caller's [force], or [false] when none is given; it
    returns [true] with one log line when the call succeeds and [false]
    with one error line when it throws.  Registry and connection flag are
    not touched. *)
Theorem syncTables_never_throws force st :
  ∃ b line,
    syncTables respond force st
    = (inr b,
       mkState (respond _ (Sync (default false force)) (sequelize st)).1
         (models st) (isConnected st)
         (calls st ++ [Called (Sync (default false force))])
         (console st ++ [line])) ∧
    match (respond _ (Sync (default false force)) (sequelize st)).2 with
    | inr _ => b = true ∧ ∃ message, line = ConsoleLog message
    | inl error => b = false ∧ ∃ message, line = ConsoleError message error
    end.
Proof.
  unfold syncTables. step_M.
  destruct (respond _ _ _) as [e' [error|[]]]; cbn; eauto 10.
Qed.

(** X2: [query] does not look at the registry.  It makes one [query]
    call with the statement as given and the caller's options, or an
    empty object when none are given.  When the call succeeds its two
    results come back as [{results, metadata}] and nothing is logged;
    when it throws, the same error is rethrown after one error line. *)
Theorem query_passes_through sql options st :
  ∃ st',
    (query respond sql options st).2 = st' ∧
    sequelize st' = (respond _ (Query sql (default ∅ options)) (sequelize st)).1 ∧
    models st' = models st ∧ isConnected st' = isConnected st ∧
    calls st' = calls st ++ [Called (Query sql (default ∅ options))] ∧
    match (respond _ (Query sql (default ∅ options)) (sequelize st)).2 with
    | inr (results, metadata) =>
        (query respond sql options st).1
        = inr (JObject {[ "results" := results; "metadata" := metadata ]}) ∧
        console st' = console st
    | inl error =>
        (query respond sql options st).1 = inl error ∧
        ∃ message, console st' = console st ++ [ConsoleError message error]
    end.
Proof.
  unfold query. step_M.
  destruct (respond _ _ _) as [e' [error|[results metadata]]]; cbn;
    eexists; repeat split; eauto.
Qed.

(** *** Describing and listing tables *)

(** X3: [getTableInfo] never throws and changes nothing.  It answers
    [null] exactly for the names that resolve to nothing; for a
    registered name it describes the handle stored under it, and for a
    name inherited from [Object.prototype] it answers a description whose
    [attributes] and [associations] are [undefined]. *)
Theorem getTableInfo_describes tableName st :
  ∃ info,
    getTableInfo handle_property tableName st = (inr info, st) ∧
    (info = JNull ↔ property (models st) tableName = Undefined) ∧
    (∀ h, models st !! tableName = Some h →
       info = JObject
                {[ "tableName" := JString tableName;
                   "attributes"
                     := handle_property (sequelize st) h "rawAttributes";
                   "associations"
                     := handle_property (sequelize st) h "associations" ]}) ∧
    (∀ name, property (models st) tableName = Inherited name →
       info = JObject {[ "tableName" := JString tableName;
                         "attributes" := JUndefined;
                         "associations" := JUndefined ]}).
Proof.
  unfold getTableInfo, read_property. step_M.
  destruct (property (models st) tableName) as [h'|name'|] eqn:Hp; cbn;
    rewrite ?Hp; eexists; (split; [reflexivity|]); repeat split;
    try done.
  - intros h Hh. apply property_own in Hh. congruence.
  - intros h Hh. apply property_own in Hh. congruence.
  - intros h Hh. apply property_own in Hh. congruence.
Qed.

(** X4: [getTables] changes nothing and lists every registered name
    once, and no other name; after a first registration that succeeds the
    list is the former one with the new name added (the order of the list
    is not modelled). *)
Theorem getTables_lists_registered st :
  ∃ names,
    getTables st = (inr names, st) ∧
    NoDup names ∧
    (∀ name, name ∈ names ↔ is_Some (models st !! name)) ∧
    ∀ tableName schema options h st',
      property (models st) tableName = Undefined →
      createTable respond toLowerCase tableName schema options st = (inr (Own h), st') →
      ∃ names',
        getTables st' = (inr names', st') ∧ names' ≡ₚ tableName :: names.
Proof.
  unfold getTables. step_M. eexists. split; [reflexivity|].
  split; [apply NoDup_fst_map_to_list|]. split.
  - intros name. rewrite list_elem_of_fmap. split.
    + intros ([k v] & -> & Hin). apply elem_of_map_to_list in Hin. by eexists.
    + intros [v Hv]. exists (name, v). split; [done|].
      by apply elem_of_map_to_list.
  - intros tableName schema options h st' Hnew Hrun.
    apply property_undefined, property_falsy in Hnew as (Hnone & _ & Hundef).
    destruct (respond _ (define_call toLowerCase tableName schema options)
                (sequelize st)) as [e' [error|h']] eqn:Hr.
    { erewrite createTable_refused in Hrun; [discriminate| |done].
      by rewrite Hundef. }
    erewrite createTable_defined in Hrun; [| |done]; [|by rewrite Hundef].
    injection Hrun as _ <-. eexists. split; [reflexivity|]. cbn.
    by rewrite map_to_list_insert.
Qed.

(** *** Table operations that succeed *)

(** X5: a table operation on a registered table whose engine call
    returns hands that result back unchanged.  The engine was called
    exactly once, on the handle stored under the name; registry and
    connection flag are what they were; the console has one more log line
    for [insert], [insertMany], [update] and [delete] and none for
    [find], [findOne], [findById] and [count]. *)
Theorem engine_result_returned {R} (op : Op R) tableName method h st e' result :
  request op = Some (tableName, method) →
  models st !! tableName = Some h →
  respond R (OnModel h method) (sequelize st) = (e', inr result) →
  ∃ lines,
    run respond handle_property Object_create toLowerCase op st
    = (inr result,
       mkState e' (models st) (isConnected st)
         (calls st ++ [Called (OnModel h method)])
         (console st ++ lines)) ∧
    (if silent op then lines = []
     else ∃ message, lines = [ConsoleLog message]).
Proof.
  intros Hreq Hh Hr.
  destruct op; try discriminate; injection Hreq as <- <-; cbn [run];
    unfold insert, insertMany, find, findOne, findById, update, delete, count;
    erewrite on_table_engine_result by done; cbn; eauto.
Qed.

(** *** A registration the engine refuses *)

(** X6: when [define] throws during a first registration, [createTable]
    throws the same error without logging, and the name stays
    unregistered: a later [createTable] for it reaches the engine again
    with the schema of that later call. *)
Theorem createTable_refused_then_retried
    tableName schema options schema' options' st e' error :
  property (models st) tableName = Undefined →
  respond _ (define_call toLowerCase tableName schema options) (sequelize st)
    = (e', inl error) →
  ∃ st',
    createTable respond toLowerCase tableName schema options st = (inl error, st') ∧
    models st' = models st ∧ console st' = console st ∧
    isConnected st' = isConnected st ∧
    calls st' = calls st ++ [Called (define_call toLowerCase tableName schema options)] ∧
    calls (createTable respond toLowerCase tableName schema' options' st').2
    = calls st' ++ [Called (define_call toLowerCase tableName schema' options')].
Proof.
  intros Hnew%property_undefined Hr.
  erewrite createTable_refused by done. eexists. split; [done|]. cbn.
  repeat split.
  destruct (respond _ (define_call toLowerCase tableName schema' options') e')
    as [e'' [error'|h']] eqn:Hr'.
  - by erewrite createTable_refused.
  - by erewrite createTable_defined.
Qed.

(** *** The filter of update and delete *)

(** X7: [update] and [delete] build the options of their engine call as
    [{where, ...options}]: every entry of the caller's options is passed
    on, and the [where] argument is used only when the options have no
    [where] entry of their own. *)
Theorem where_overridden_by_options
    tableName (data : Obj) (where_ : JsValue) (options : option Obj) h st :
  models st !! tableName = Some h →
  ∃ sent,
    calls (update respond Object_create tableName data where_ options st).2
    = calls st ++ [Called (OnModel h (Update data sent))] ∧
    calls (delete respond Object_create tableName where_ options st).2
    = calls st ++ [Called (OnModel h (Destroy sent))] ∧
    sent !! "where" = Some (default where_ (default ∅ options !! "where")) ∧
    ∀ key, key ≠ "where" → sent !! key = default ∅ options !! key.
Proof.
  intros Hh. exists (spread_opt {[ "where" := where_ ]} options).
  split; [|split; [|split]].
  - unfold update.
    destruct (respond _ (OnModel h (Update data
                (spread_opt {[ "where" := where_ ]} options))) (sequelize st))
      as [e' [error|n]] eqn:Hr.
    + by erewrite on_table_engine_error.
    + by erewrite on_table_engine_result.
  - unfold delete.
    destruct (respond _ (OnModel h (Destroy
                (spread_opt {[ "where" := where_ ]} options))) (sequelize st))
      as [e' [error|n]] eqn:Hr.
    + by erewrite on_table_engine_error.
    + by erewrite on_table_engine_result.
  - destruct options as [o|]; cbn; [|apply lookup_singleton_eq].
    unfold spread. destruct (o !! "where") eqn:Ho; cbn.
    + by apply lookup_union_Some_l.
    + rewrite lookup_union_r by done. apply lookup_singleton_eq.
  - intros key Hkey. destruct options as [o|]; cbn.
    + unfold spread. destruct (o !! key) eqn:Ho.
      * by apply lookup_union_Some_l.
      * rewrite lookup_union_r by done. by apply lookup_singleton_ne.
    + rewrite lookup_empty. by apply lookup_singleton_ne.
Qed.

(** *** What a call can do to the state *)

Ltac shape st cs ds :=
  first
    [ do 3 eexists; exists cs, ds;
      split; [cbn; rewrite ?app_nil_r; reflexivity | cbn; lia]
    | exists (sequelize st), (models st), (isConnected st), cs, ds;
      split; [cbn; rewrite ?app_nil_r; by destruct st | cbn; lia] ].

Lemma on_table_effect {R} tableName (method : Method R) success failure st :
  ∃ e' cs ds,
    (on_table respond Object_create tableName method success failure st).2
    = mkState e' (models st) (isConnected st)
        (calls st ++ cs) (console st ++ ds) ∧
    List.length cs ≤ 1 ∧ List.length ds ≤ 1.
Proof.
  destruct (models st !! tableName) as [h|] eqn:Hh.
  - destruct (respond R (OnModel h method) (sequelize st))
      as [e' [error|result]] eqn:Hr.
    + erewrite on_table_engine_error by done.
      exists e', [Called (OnModel h method)], [ConsoleError failure error].
      cbn. auto.
    + erewrite on_table_engine_result by done.
      exists e', [Called (OnModel h method)]. eexists.
      split; [reflexivity|]. split; [cbn; lia|].
      destruct (success result); cbn; lia.
  - assert (property (models st) tableName = Inherited tableName
            ∨ property (models st) tableName = Undefined) as [Hp|Hp].
    { unfold property. rewrite Hh. case_bool_decide; auto. }
    2: { rewrite on_table_unregistered by done. exists (sequelize st), [], [].
         rewrite !app_nil_r. cbn. split; [by destruct st|lia]. }
    unfold on_table, invoke. step_M. rewrite Hp; cbn. rewrite Hp.
    unfold native.
    assert (∀ (error : JsError),
              ∃ e' cs ds,
                with_console (ConsoleError failure error) st
                = mkState e' (models st) (isConnected st)
                    (calls st ++ cs) (console st ++ ds) ∧
                List.length cs ≤ 1 ∧ List.length ds ≤ 1) as Hthrown.
    { intros error. exists (sequelize st), [], [ConsoleError failure error].
      unfold with_console. rewrite app_nil_r. cbn. auto. }
    destruct method as [d o|d o|o|o|i|d o|o|o]; step_M; try apply Hthrown.
    destruct (String.eqb tableName "constructor"); [|apply Hthrown].
    destruct (Object_create d o) as [error|v]; cbn; [apply Hthrown|].
    destruct (success v) as [line|]; cbn.
    + exists (sequelize st), [], [ConsoleLog line].
      unfold with_console. rewrite app_nil_r. cbn. auto.
    + exists (sequelize st), [], []. rewrite !app_nil_r. cbn.
      split; [by destruct st|lia].
Qed.

(** X8: one call of a public method makes at most one call on the
    engine and writes at most one line on the console; what was recorded
    before stays in front. *)
Theorem one_call_one_line {R} (op : Op R) st :
  ∃ cs ds,
    calls (run respond handle_property Object_create toLowerCase op st).2
    = calls st ++ cs ∧
    console (run respond handle_property Object_create toLowerCase op st).2
    = console st ++ ds ∧
    List.length cs ≤ 1 ∧ List.length ds ≤ 1.
Proof.
  assert (∀ st' : State Handle Engine,
            (∃ e' m b cs ds,
               st' = mkState e' m b (calls st ++ cs) (console st ++ ds) ∧
               List.length cs ≤ 1 ∧ List.length ds ≤ 1) →
            ∃ cs ds,
              calls st' = calls st ++ cs ∧ console st' = console st ++ ds ∧
              List.length cs ≤ 1 ∧ List.length ds ≤ 1) as Hshape.
  { intros st' (e' & m & b & cs & ds & -> & Hcs & Hds). by exists cs, ds. }
  apply Hshape.
  destruct (request op) as [[tableName method]|] eqn:Hreq.
  { apply (run_request respond handle_property Object_create toLowerCase) in Hreq
      as (success & failure & ->).
    destruct (on_table_effect tableName method success failure st)
      as (e' & cs & ds & -> & Hcs & Hds). by exists e', (models st), (isConnected st), cs, ds. }
  destruct op; try discriminate; cbn [run].
  - unfold connect. step_M.
    destruct (respond _ _ _) as [e' [error|[]]]; cbn.
    + shape st [Called (@Authenticate Handle)]
        [ConsoleError "❌ Unable to connect to database:" error].
    + shape st [Called (@Authenticate Handle)]
        [ConsoleLog "✅ Database connection established successfully"].
  - destruct (truthy (property (models st) tableName)) eqn:Ht.
    { rewrite createTable_existing by done.
      shape st (@nil (EngineCall Handle))
        [ConsoleLog ("ℹ️ Table '" +:+ tableName +:+ "' already defined")]. }
    destruct (respond _ (define_call toLowerCase tableName schema options)
                (sequelize st)) as [e' [error|h']] eqn:Hr.
    + erewrite createTable_refused by done.
      shape st [Called (define_call (Handle:=Handle) toLowerCase tableName schema options)]
        (@nil Diagnostic).
    + erewrite createTable_defined by done.
      shape st [Called (define_call (Handle:=Handle) toLowerCase tableName schema options)]
        [ConsoleLog ("✅ Table '" +:+ tableName +:+ "' created")].
  - unfold syncTables. step_M.
    destruct (respond _ _ _) as [e' [error|[]]]; cbn.
    + shape st [Called (@Sync Handle (default false force))]
        [ConsoleError "❌ Error syncing tables:" error].
    + shape st [Called (@Sync Handle (default false force))]
        [ConsoleLog "✅ All tables synced successfully"].
  - unfold query. step_M.
    destruct (respond _ _ _) as [e' [error|[results metadata]]]; cbn.
    + shape st [Called (@Query Handle sql (default ∅ options))]
        [ConsoleError "❌ Error executing raw query:" error].
    + shape st [Called (@Query Handle sql (default ∅ options))]
        (@nil Diagnostic).
  - unfold getTableInfo, read_property. step_M.
    destruct (truthy _); cbn;
      shape st (@nil (EngineCall Handle)) (@nil Diagnostic).
  - shape st (@nil (EngineCall Handle)) (@nil Diagnostic).
  - unfold close. step_M.
    destruct (respond _ _ _) as [e' [error|[]]]; cbn.
    + shape st [Called (@Close Handle)]
        [ConsoleError "❌ Error closing database:" error].
    + shape st [Called (@Close Handle)]
        [ConsoleLog "✅ Database connection closed"].
  - shape st (@nil (EngineCall Handle)) (@nil Diagnostic).
  - shape st (@nil (EngineCall Handle)) (@nil Diagnostic).
Qed.

(** *** How the registry changes *)

Lemma run_models {R} (op : Op R) st :
  registration op = None →
  models (run respond handle_property Object_create toLowerCase op st).2 = models st.
Proof.
  intros Hreg.
  destruct (request op) as [[tableName method]|] eqn:Hreq.
  { apply (run_request respond handle_property Object_create toLowerCase) in Hreq
      as (success & failure & ->).
    apply on_table_models. }
  destruct op; try discriminate; cbn [run].
  - unfold connect. step_M. by destruct (respond _ _ _) as [e' [error|[]]].
  - unfold syncTables. step_M.
    by destruct (respond _ _ _) as [e' [error|[]]].
  - unfold query. step_M.
    by destruct (respond _ _ _) as [e' [error|[results metadata]]].
  - unfold getTableInfo, read_property. step_M. by destruct (truthy _).
  - done.
  - unfold close. step_M. by destruct (respond _ _ _) as [e' [error|[]]].
  - done.
  - done.
Qed.

Lemma run_entry_change {R} (op : Op R) st k :
  models (run respond handle_property Object_create toLowerCase op st).2 !! k
  = models st !! k
  ∨ (registration op = Some k ∧
     property (models st) k = Undefined ∧
     is_Some (models (run respond handle_property Object_create toLowerCase op st).2 !! k)).
Proof.
  destruct (registration op) as [t|] eqn:Hreg.
  2: { left. by rewrite run_models. }
  destruct op; try discriminate. injection Hreg as <-. cbn [run].
  destruct (truthy (property (models st) tableName)) eqn:Ht.
  { left. by rewrite createTable_existing. }
  destruct (respond _ (define_call toLowerCase tableName schema options)
              (sequelize st)) as [e' [error|h']] eqn:Hr.
  { left. by erewrite createTable_refused. }
  erewrite createTable_defined by done. cbn.
  destruct (decide (k = tableName)) as [->|Hne].
  - right. apply property_falsy in Ht as (_ & _ & Hu).
    rewrite lookup_insert_eq. eauto.
  - left. by rewrite lookup_insert_ne.
Qed.

(** X9: a call of a public method leaves every registry entry as it
    was, with one exception: [createTable] adds an entry for its table
    name when that name resolved to nothing before the call. *)
Theorem registry_changes_only_by_registration {R} (op : Op R) st k :
  models (run respond handle_property Object_create toLowerCase op st).2 !! k
  = models st !! k
  ∨ (registration op = Some k ∧
     property (models st) k = Undefined ∧
     is_Some (models (run respond handle_property Object_create toLowerCase op st).2 !! k)).
Proof. apply run_entry_change. Qed.

Lemma run_all_no_inherited ops st :
  (∀ k, k ∈ Object_prototype → models st !! k = None) →
  ∀ k, k ∈ Object_prototype →
       models (run_all respond handle_property Object_create toLowerCase ops st) !! k
       = None.
Proof.
  revert st. induction ops as [|[R op] ops IH]; intros st Hinv; [done|].
  cbn. apply IH. intros k Hk.
  destruct (run_entry_change op st k)
    as [->|(_ & Hu & _)]; [by apply Hinv|].
  apply property_undefined, property_falsy in Hu as (_ & Hout & _). done.
Qed.

(** X10: on a database made by the constructor, whatever public
    methods are called, no name inherited from [Object.prototype] ever
    enters the registry: [createTable] for such a name reports the table
    as already defined, returns the inherited member and does not call
    the engine. *)
Theorem inherited_name_never_registered
    (new_Sequelize : Obj → JsError + Engine) defaultStorage options st0
    ops k schema opts :
  constructor new_Sequelize defaultStorage options = inr st0 →
  k ∈ Object_prototype →
  ∃ st,
    st = run_all respond handle_property Object_create toLowerCase ops st0 ∧
    models st !! k = None ∧
    createTable respond toLowerCase k schema opts st
    = (inr (Inherited k),
       with_console
         (ConsoleLog ("ℹ️ Table '" +:+ k +:+ "' already defined")) st).
Proof.
  intros Hnew Hk. eexists. split; [reflexivity|].
  assert (models (run_all respond handle_property Object_create toLowerCase ops st0) !! k
          = None) as Hnone.
  { apply run_all_no_inherited; [|done]. intros k' _.
    unfold constructor in Hnew.
    destruct (new_Sequelize _); [done|]. by injection Hnew as <-. }
  split; [done|].
  assert (property
            (models (run_all respond handle_property Object_create toLowerCase ops st0)) k
          = Inherited k) as Hp.
  { unfold property. rewrite Hnone. by rewrite bool_decide_eq_true_2. }
  rewrite createTable_existing by (by rewrite Hp). by rewrite Hp.
Qed.

(** *** The connection flag is only written *)

Lemma on_table_flag {R} tableName (method : Method R) success failure b st :
  on_table respond Object_create tableName method success failure
    (with_isConnected b st)
  = ((on_table respond Object_create tableName method success failure st).1,
     with_isConnected b
       (on_table respond Object_create tableName method success failure st).2).
Proof.
  destruct (models st !! tableName) as [h|] eqn:Hh.
  - destruct (respond R (OnModel h method) (sequelize st))
      as [e' [error|result]] eqn:Hr.
    + erewrite !on_table_engine_error by done. done.
    + erewrite !on_table_engine_result by done. done.
  - assert (property (models st) tableName = Inherited tableName
            ∨ property (models st) tableName = Undefined) as [Hp|Hp].
    { unfold property. rewrite Hh. case_bool_decide; auto. }
    2: { by rewrite !on_table_unregistered. }
    unfold on_table, invoke. step_M. cbn. rewrite Hp; cbn. rewrite Hp.
    unfold native.
    destruct method as [d o|d o|o|o|i|d o|o|o]; step_M; try done.
    destruct (String.eqb tableName "constructor"); [|done].
    destruct (Object_create d o) as [error|v]; cbn; [done|].
    by destruct (success v).
Qed.

(** X11: no public method reads the connection flag.  Run on two states
    that differ in the flag only, a method returns or throws the same
    value, sends the same call to the engine, writes the same line and
    leaves the same registry. *)
Theorem connection_flag_never_read {R} (op : Op R) b st :
  (run respond handle_property Object_create toLowerCase op (with_isConnected b st)).1
  = (run respond handle_property Object_create toLowerCase op st).1 ∧
  sequelize
    (run respond handle_property Object_create toLowerCase op (with_isConnected b st)).2
  = sequelize (run respond handle_property Object_create toLowerCase op st).2 ∧
  models
    (run respond handle_property Object_create toLowerCase op (with_isConnected b st)).2
  = models (run respond handle_property Object_create toLowerCase op st).2 ∧
  calls
    (run respond handle_property Object_create toLowerCase op (with_isConnected b st)).2
  = calls (run respond handle_property Object_create toLowerCase op st).2 ∧
  console
    (run respond handle_property Object_create toLowerCase op (with_isConnected b st)).2
  = console (run respond handle_property Object_create toLowerCase op st).2.
Proof.
  destruct (request op) as [[tableName method]|] eqn:Hreq.
  { apply (run_request respond handle_property Object_create toLowerCase) in Hreq
      as (success & failure & ->).
    by rewrite on_table_flag. }
  destruct op; try discriminate; cbn [run].
  - unfold connect. step_M. cbn.
    by destruct (respond _ _ _) as [e' [error|[]]].
  - unfold createTable. step_M. cbn.
    destruct (truthy (property (models st) tableName)); [done|].
    by destruct (respond _ _ _) as [e' [error|h']].
  - unfold syncTables. step_M. cbn.
    by destruct (respond _ _ _) as [e' [error|[]]].
  - unfold query. step_M. cbn.
    by destruct (respond _ _ _) as [e' [error|[results metadata]]].
  - unfold getTableInfo, read_property. step_M. cbn.
    by destruct (truthy _).
  - done.
  - unfold close. step_M. cbn.
    by destruct (respond _ _ _) as [e' [error|[]]].
  - done.
  - done.
Qed.

(** *** Names that differ in case only *)

(** X12: the registry keeps the case of a name and the default storage
    name does not.  Two names that differ but have the same lower-cased
    form are registered one after the other as two entries with two
    [define] calls, and both calls carry the same storage table name. *)
Theorem case_variants_share_storage_name
    tableName1 tableName2 schema1 schema2 st r1 st1 r2 st2 :
  tableName1 ≠ tableName2 →
  toLowerCase tableName1 = toLowerCase tableName2 →
  property (models st) tableName1 = Undefined →
  property (models st) tableName2 = Undefined →
  createTable respond toLowerCase tableName1 schema1 None st = (inr r1, st1) →
  createTable respond toLowerCase tableName2 schema2 None st1 = (inr r2, st2) →
  ∃ h1 h2 attributes1 attributes2 options1 options2,
    calls st2
    = calls st ++ [ Called (Define tableName1 attributes1 options1);
                    Called (Define tableName2 attributes2 options2) ] ∧
    options1 !! "tableName" = Some (JString (toLowerCase tableName1)) ∧
    options2 !! "tableName" = Some (JString (toLowerCase tableName1)) ∧
    r1 = Own h1 ∧ r2 = Own h2 ∧
    models st2 !! tableName1 = Some h1 ∧
    models st2 !! tableName2 = Some h2.
Proof.
  intros Hne Hlow Hnew1%property_undefined Hnew2 Hrun1 Hrun2.
  destruct (respond _ (define_call toLowerCase tableName1 schema1 None) (sequelize st))
    as [e1 [error|h1]] eqn:Hr1.
  { erewrite createTable_refused in Hrun1 by done. discriminate. }
  erewrite createTable_defined in Hrun1 by done.
  injection Hrun1 as <- <-.
  apply property_undefined, property_falsy in Hnew2 as (Hnone2 & Hout2 & _).
  match type of Hrun2 with
  | createTable _ _ _ _ _ ?s = _ =>
      assert (truthy (property (models s) tableName2) = false) as Hnew2
  end.
  { cbn. unfold property. rewrite lookup_insert_ne, Hnone2 by done.
    by rewrite bool_decide_eq_false_2. }
  match type of Hrun2 with
  | createTable _ _ _ _ _ ?s = _ =>
      destruct (respond _ (define_call toLowerCase tableName2 schema2 None) (sequelize s))
        as [e2 [error|h2]] eqn:Hr2
  end.
  { erewrite createTable_refused in Hrun2 by done. discriminate. }
  erewrite createTable_defined in Hrun2 by done.
  injection Hrun2 as <- <-.
  exists h1, h2. do 4 eexists. cbn.
  split; [by rewrite <- app_assoc|].
  split; [done|]. split; [by rewrite Hlow|].
  split; [done|]. split; [done|]. split.
  - rewrite lookup_insert_ne by done. apply lookup_insert_eq.
  - apply lookup_insert_eq.
Qed.

(** *** Table operations on an inherited name *)

(** X14: a table operation on a name that is not registered but is
    inherited from [Object.prototype] gets past the guard and never
    reaches the engine.  Except for [create] on ["constructor"], which
    finds [Object.create], the method is missing on the inherited member:
    the operation throws the [TypeError] of that missing method after one
    error line, and the rest of the state is as it was. *)
Theorem inherited_name_operation {R} (op : Op R) tableName method st :
  request op = Some (tableName, method) →
  tableName ∈ Object_prototype →
  models st !! tableName = None →
  calls (run respond handle_property Object_create toLowerCase op st).2 = calls st ∧
  ((tableName = "constructor" ∧ method_name method = "create")
   ∨ ∃ message,
       run respond handle_property Object_create toLowerCase op st
       = (inl (not_a_function method),
          with_console (ConsoleError message (not_a_function method)) st)).
Proof.
  intros Hreq Hin Hnone.
  apply (run_request respond handle_property Object_create toLowerCase) in Hreq
    as (success & failure & ->).
  split; [by eapply on_table_no_handle|].
  assert (property (models st) tableName = Inherited tableName) as Hp.
  { unfold property. rewrite Hnone. by rewrite bool_decide_eq_true_2. }
  unfold on_table, invoke. step_M. rewrite Hp; cbn. rewrite Hp.
  unfold native.
  destruct method as [d o|d o|o|o|i|d o|o|o]; step_M; eauto.
  destruct (String.eqb_spec tableName "constructor") as [->|Hne]; eauto.
Qed.

End FacadeBehaviour.

(** *** The configuration given to Sequelize *)

(** X13: the constructor gives [new Sequelize] exactly the three
    settings [dialect], [storage] and [logging], whatever else the
    options hold.  [dialect] and [storage] are the defaults only when the
    options have no such entry (an entry holding [undefined] is passed
    on as it is), whereas [logging] is never [undefined]: a missing or
    [undefined] [logging] becomes [false]. *)
Theorem sequelize_config_settings defaultStorage (options : option Obj) :
  dom (sequelize_config defaultStorage options)
  = {[ "dialect"; "storage"; "logging" ]} ∧
  sequelize_config defaultStorage options !! "dialect"
  = Some (default (JString "sqlite") (default ∅ options !! "dialect")) ∧
  sequelize_config defaultStorage options !! "storage"
  = Some (default (JString defaultStorage) (default ∅ options !! "storage")) ∧
  sequelize_config defaultStorage options !! "logging"
  = Some (match default ∅ options !! "logging" with
          | Some value => if is_undefined value then JBool false else value
          | None => JBool false
          end) ∧
  sequelize_config defaultStorage options !! "logging" ≠ Some JUndefined.
Proof.
  set (o := default ∅ options).
  assert (∀ (base : Obj) key value,
            base !! key = Some value →
            read (spread base o) key = default value (o !! key)) as Hread.
  { intros base key value Hbase. unfold read, spread.
    destruct (o !! key) as [v|] eqn:Ho.
    - by erewrite lookup_union_Some_l.
    - by rewrite lookup_union_r, Hbase. }
  assert (sequelize_config defaultStorage options !! "logging"
          = Some (match o !! "logging" with
                  | Some value =>
                      if is_undefined value then JBool false else value
                  | None => JBool false
                  end)) as Hlogging.
  { unfold sequelize_config. fold o.
    rewrite lookup_insert_ne, lookup_insert_ne, lookup_singleton_eq by done.
    f_equal. unfold read, spread.
    destruct (o !! "logging") as [value|] eqn:Ho; cbn [default].
    - change (is_undefined (id value)) with (is_undefined value).
      destruct (is_undefined value) eqn:Hu.
      + by rewrite lookup_insert_eq.
      + by erewrite lookup_union_Some_l.
    - cbn. by rewrite lookup_insert_eq. }
  split; [|split; [|split; [|split]]].
  - unfold sequelize_config.
    rewrite !dom_insert_L, dom_singleton_L. set_solver.
  - unfold sequelize_config. fold o. rewrite lookup_insert_eq. f_equal.
    destruct (is_undefined (read o "logging")).
    + unfold read at 1. rewrite lookup_insert_ne by done.
      by apply (Hread _ "dialect").
    + by apply (Hread _ "dialect").
  - unfold sequelize_config. fold o.
    rewrite lookup_insert_ne, lookup_insert_eq by done. f_equal.
    destruct (is_undefined (read o "logging")).
    + unfold read at 1. rewrite lookup_insert_ne by done.
      by apply (Hread _ "storage").
    + by apply (Hread _ "storage").
  - done.
  - rewrite Hlogging.
    destruct (o !! "logging") as [value|]; [|done].
    by destruct value.
Qed.

(** *** The further properties on the two engines *)

(** An [insert] into the registered ["User"] on the healthy engine. *)
Lemma engine_result_returned_witness :
  ∃ lines,
    run Stub.healthy Stub.no_properties Stub.Object_create Stub.toLowerCase
      (OpInsert "User" {[ "name" := JString "Ada" ]} None) Stub.with_User
    = (inr (JObject {[ "name" := JString "Ada" ]}),
       mkState 1 (models Stub.with_User) (isConnected Stub.with_User)
         (calls Stub.with_User
          ++ [Called (OnModel 0 (Create {[ "name" := JString "Ada" ]} None))])
         (console Stub.with_User ++ lines)) ∧
    (if silent (Handle:=nat) (Engine:=nat)
          (OpInsert "User" {[ "name" := JString "Ada" ]} None)
     then lines = []
     else ∃ message, lines = [ConsoleLog message]).
Proof.
  apply (engine_result_returned Stub.healthy Stub.no_properties
           Stub.Object_create Stub.toLowerCase
           (OpInsert "User" {[ "name" := JString "Ada" ]} None)
           "User" _ 0 Stub.with_User 1); reflexivity.
Defined.

(** A registration while the engine is down, then a second attempt. *)
Lemma createTable_refused_then_retried_witness :
  ∃ st',
    createTable Stub.failing Stub.toLowerCase "User" ∅ None (new_Database 0)
    = (inl Stub.down, st') ∧
    models st' = models (new_Database 0 : State nat nat) ∧
    console st' = console (new_Database 0 : State nat nat) ∧
    isConnected st' = isConnected (new_Database 0 : State nat nat) ∧
    calls st' = calls (new_Database 0 : State nat nat) ++ [Called (define_call Stub.toLowerCase "User" ∅ None)] ∧
    calls (createTable Stub.failing Stub.toLowerCase "User" {[ "id" := JType STRING ]} None
             st').2
    = calls st'
      ++ [Called (define_call Stub.toLowerCase "User" {[ "id" := JType STRING ]} None)].
Proof.
  apply (createTable_refused_then_retried Stub.failing Stub.toLowerCase "User" ∅ None
           {[ "id" := JType STRING ]} None (new_Database 0) 0 Stub.down);
    reflexivity.
Defined.

(** An [update] and a [delete] whose options carry a [where] of their
    own. *)
Lemma where_overridden_by_options_witness :
  ∃ sent,
    calls (update Stub.failing Stub.Object_create "User"
             {[ "age" := JNumber 30 ]} (JObject {[ "id" := JNumber 1 ]})
             (Some {[ "where" := JObject ∅; "limit" := JNumber 5 ]})
             Stub.unreachable).2
    = calls Stub.unreachable
      ++ [Called (OnModel 0 (Update {[ "age" := JNumber 30 ]} sent))] ∧
    calls (delete Stub.failing Stub.Object_create "User"
             (JObject {[ "id" := JNumber 1 ]})
             (Some {[ "where" := JObject ∅; "limit" := JNumber 5 ]})
             Stub.unreachable).2
    = calls Stub.unreachable ++ [Called (OnModel 0 (Destroy sent))] ∧
    sent !! "where" = Some (JObject ∅) ∧
    sent !! "limit" = Some (JNumber 5).
Proof.
  destruct (where_overridden_by_options Stub.failing Stub.Object_create
              "User" {[ "age" := JNumber 30 ]}
              (JObject {[ "id" := JNumber 1 ]})
              (Some {[ "where" := JObject ∅; "limit" := JNumber 5 ]})
              0 Stub.unreachable)
    as (sent & Hupdate & Hdelete & Hwhere & Hrest); [reflexivity|].
  exists sent. split; [exact Hupdate|]. split; [exact Hdelete|].
  split; [exact Hwhere|]. apply (Hrest "limit"). discriminate.
Defined.

(** A table called ["constructor"], after other tables were registered. *)
Lemma inherited_name_never_registered_witness :
  ∃ st,
    st = run_all Stub.healthy Stub.no_properties Stub.Object_create Stub.toLowerCase
           [ AnOp (OpCreateTable "User" ∅ None);
             AnOp (OpCreateTable "constructor" ∅ None);
             AnOp (OpInsert "constructor" ∅ None) ]
           (new_Database 0) ∧
    models st !! "constructor" = None ∧
    createTable Stub.healthy Stub.toLowerCase "constructor" {[ "id" := JType STRING ]} None st
    = (inr (Inherited "constructor"),
       with_console
         (ConsoleLog ("ℹ️ Table '" +:+ "constructor" +:+ "' already defined"))
         st).
Proof.
  apply (inherited_name_never_registered Stub.healthy Stub.no_properties
           Stub.Object_create Stub.toLowerCase (λ _, inr 0) "/srv/app/database.sqlite" None
           (new_Database 0)).
  - reflexivity.
  - unfold Object_prototype. apply list_elem_of_here.
Defined.

(** ["User"] and ["user"] on the healthy engine. *)
Lemma case_variants_share_storage_name_witness :
  ∃ h1 h2 attributes1 attributes2 options1 options2,
    calls (createTable Stub.healthy Stub.toLowerCase "user" ∅ None Stub.with_User).2
    = calls (new_Database 0 : State nat nat)
      ++ [ Called (Define "User" attributes1 options1);
           Called (Define "user" attributes2 options2) ] ∧
    options1 !! "tableName" = Some (JString (Stub.toLowerCase "User")) ∧
    options2 !! "tableName" = Some (JString (Stub.toLowerCase "User")) ∧
    Own 0 = Own h1 ∧ Own 1 = Own h2 ∧
    models (createTable Stub.healthy Stub.toLowerCase "user" ∅ None Stub.with_User).2 !! "User"
    = Some h1 ∧
    models (createTable Stub.healthy Stub.toLowerCase "user" ∅ None Stub.with_User).2 !! "user"
    = Some h2.
Proof.
  apply (case_variants_share_storage_name Stub.healthy Stub.toLowerCase "User" "user" ∅ ∅
           (new_Database 0) (Own 0) Stub.with_User (Own 1)
           (createTable Stub.healthy Stub.toLowerCase "user" ∅ None Stub.with_User).2);
    try reflexivity.
  discriminate.
Defined.

Example sequelize_config_defaults :
  sequelize_config "/srv/app/database.sqlite" None
  = {[ "dialect" := JString "sqlite";
       "storage" := JString "/srv/app/database.sqlite";
       "logging" := JBool false ]}.
Proof. reflexivity. Qed.

Example sequelize_config_undefined_entries :
  sequelize_config "/srv/app/database.sqlite"
    (Some {[ "dialect" := JUndefined; "logging" := JUndefined;
             "pool" := JNumber 5 ]})
  = {[ "dialect" := JUndefined;
       "storage" := JString "/srv/app/database.sqlite";
       "logging" := JBool false ]}.
Proof. reflexivity. Qed.

(** A [count] on ["valueOf"], which no one registered. *)
Lemma inherited_name_operation_witness :
  calls (run Stub.healthy Stub.no_properties Stub.Object_create Stub.toLowerCase
           (OpCount "valueOf" None) Stub.with_User).2
  = calls Stub.with_User ∧
  (("valueOf" = "constructor"
    ∧ method_name (Count (default ∅ (None : option Obj))) = "create")
   ∨ ∃ message,
       run Stub.healthy Stub.no_properties Stub.Object_create Stub.toLowerCase
         (OpCount "valueOf" None) Stub.with_User
       = (inl (not_a_function (Count (default ∅ None))),
          with_console
            (ConsoleError message (not_a_function (Count (default ∅ None))))
            Stub.with_User)).
Proof.
  apply (inherited_name_operation Stub.healthy Stub.no_properties
           Stub.Object_create Stub.toLowerCase (OpCount "valueOf" None) "valueOf" _
           Stub.with_User).
  - reflexivity.
  - unfold Object_prototype. do 6 apply list_elem_of_further.
    apply list_elem_of_here.
  - reflexivity.
Defined.
